(** * convert_requirements.py: requirements.txt to pyproject.toml

    A shallow embedding of [src/convert_requirements.py] and the proofs of
    the properties its specification states.

    Modelling conventions.
    - A Python [str] is a [string]; every [ascii] is read as the code point
      of the same number (U+0000 .. U+00FF).
    - [print] appends one entry to the [stdout] field of the program state.
    - The set [parsed_files] is one mutable object shared by all recursive
      calls of [parse_requirements]; it is a field of the program state.
    - The file system is a finite map from canonical absolute paths to
      nodes; [os.path] is an interface with a POSIX instance.
    - [re.match] is a backtracking matcher run on the abstract syntax of
      the pattern written in the source.
    - The recursion limit of the interpreter is not modelled: a chain of
      includes may be as deep as there are files. *)

From Stdlib Require Import Ascii String.
From stdpp Require Import gmap strings list.

Local Open Scope string_scope.
Local Open Scope list_scope.
Local Open Scope nat_scope.

(** ** Python strings *)

Module Py.

Definition LF : ascii := ascii_of_nat 10.
Definition nl : string := String LF "".
Definition dquote : string := String (ascii_of_nat 34) "".

(** [str.isspace] on one character: the code points below U+0100 that
    CPython classifies as whitespace. [str.strip()], [str.split()] and the
    pattern escape [\s] all use this test. *)
Definition isspace (c : ascii) : bool :=
  let n := nat_of_ascii c in
  ((9 <=? n) && (n <=? 13)) || ((28 <=? n) && (n <=? 32))
  || (n =? 133) || (n =? 160).

Definition is_empty (s : string) : bool :=
  match s with "" => true | String _ _ => false end.

(** [s.lstrip()] *)
Fixpoint lstrip (s : string) : string :=
  match s with
  | "" => ""
  | String c s' => if isspace c then lstrip s' else s
  end.

(** [s.rstrip()] *)
Fixpoint rstrip (s : string) : string :=
  match s with
  | "" => ""
  | String c s' =>
      let r := rstrip s' in
      if isspace c && is_empty r then "" else String c r
  end.

(** [s.strip()] *)
Definition strip (s : string) : string := lstrip (rstrip s).

(** [s.startswith(p)] *)
Fixpoint startswith (p s : string) : bool :=
  match p, s with
  | "", _ => true
  | String a p', String b s' => bool_decide (a = b) && startswith p' s'
  | String _ _, "" => false
  end.

(** [s.endswith(p)] *)
Definition endswith (p s : string) : bool :=
  startswith (String.rev p) (String.rev s).

(** [s.split()] with no separator: the maximal runs of characters that are
    not whitespace. [cur] is the run being read. *)
Fixpoint split_from (cur : string) (s : string) : list string :=
  match s with
  | "" => if is_empty cur then [] else [cur]
  | String c s' =>
      if isspace c
      then (if is_empty cur then split_from "" s' else cur :: split_from "" s')
      else split_from (cur +:+ String c "") s'
  end.

Definition split (s : string) : list string := split_from "" s.

(** Truth value of a [str | None]: [None] and the empty string are false. *)
Definition truthy (v : option string) : bool :=
  match v with
  | Some s => negb (is_empty s)
  | None => false
  end.

End Py.

(** ** Regular expressions: the fragment of [re] the pattern uses *)

Module Re.

(** Abstract syntax. [In_ cls] matches one character of the set [cls] (a
    literal, a bracketed class, [\s] or [.]); [Star] and [Opt] are the
    greedy [*] and [?]; [Group i] is the i-th capturing group. A
    non-capturing group [(?:r)] is [r] itself. *)
Inductive regex : Type :=
  | Bol : regex
  | Eol : regex
  | In_ (cls : ascii -> bool) : regex
  | Cat (r1 r2 : regex) : regex
  | Opt (r : regex) : regex
  | Star (r : regex) : regex
  | Group (i : nat) (r : regex) : regex.

(** [r+] is [r r*]. *)
Definition Plus (r : regex) : regex := Cat r (Star r).

Definition groups := list (nat * string).

Definition set_group (i : nat) (v : string) (g : groups) : groups :=
  (i, v) :: filter (fun kv => kv.1 ≠ i) g.

(** [m.group(i)]: [None] when the group took no part in the match. *)
Fixpoint group (g : groups) (i : nat) : option string :=
  match g with
  | [] => None
  | (j, v) :: g' => if bool_decide (j = i) then Some v else group g' i
  end.

Definition cont := string -> groups -> option groups.

(** The backtracking matcher, in continuation-passing style. [s] is the
    part of [subject] that is still to be read, and the continuation [k] is
    the rest of the pattern. Alternatives are tried in the order of the
    [re] module: a greedy quantifier first tries one more iteration, and
    gives one back when the rest of the pattern fails. An iteration of
    [Star] that reads nothing is cut off.
    - [^] matches at index 0 only (no MULTILINE flag);
    - [$] matches at the end of the subject and just before a line feed
      that is its last character;
    - a group records the text read between its two parentheses. *)
Fixpoint exec (subject : string) (r : regex) (s : string) (g : groups)
    (k : cont) : option groups :=
  match r with
  | Bol =>
      if String.length s =? String.length subject then k s g else None
  | Eol =>
      if Py.is_empty s || bool_decide (s = Py.nl) then k s g else None
  | In_ cls =>
      match s with
      | String c s' => if cls c then k s' g else None
      | "" => None
      end
  | Cat r1 r2 => exec subject r1 s g (fun s' g' => exec subject r2 s' g' k)
  | Opt r1 =>
      match exec subject r1 s g k with
      | Some g' => Some g'
      | None => k s g
      end
  | Star r1 =>
      (fix iter (n : nat) (s : string) (g : groups) :=
         match n with
         | 0 => k s g
         | S n' =>
             match exec subject r1 s g
                     (fun s' g' =>
                        if String.length s' <? String.length s
                        then iter n' s' g' else None)
             with
             | Some g' => Some g'
             | None => k s g
             end
         end) (String.length s) s g
  | Group i r1 =>
      exec subject r1 s g
        (fun s' g' =>
           k s' (set_group i
                   (substring 0 (String.length s - String.length s') s) g'))
  end.

(** [re.match(r, subject)]: the match starts at index 0 and may end
    anywhere. *)
Definition re_match (r : regex) (subject : string) : option groups :=
  exec subject r subject [] (fun _ g => Some g).

(** Character sets. *)
Definition lit (a : ascii) : regex := In_ (fun c => bool_decide (c = a)).

Definition in_range (lo hi : ascii) (c : ascii) : bool :=
  (nat_of_ascii lo <=? nat_of_ascii c) && (nat_of_ascii c <=? nat_of_ascii hi).

(** [.] without DOTALL: any character but the line feed. *)
Definition dot (c : ascii) : bool := negb (bool_decide (c = Py.LF)).

End Re.

(** ** [os.path] *)

(** The three functions of [os.path] the program calls. *)
Class OsPath := {
  abspath : string -> string;
  join : string -> string -> string;
  dirname : string -> string
}.

(** [posixpath], for a process whose working directory is [cwd]. *)
Module Posix.

Definition sep : ascii := "/"%char.

Definition is_sep (c : ascii) : bool := bool_decide (c = sep).

Fixpoint has_sep (s : string) : bool :=
  match s with
  | "" => false
  | String c s' => is_sep c || has_sep s'
  end.

Fixpoint all_sep (s : string) : bool :=
  match s with
  | "" => true
  | String c s' => is_sep c && all_sep s'
  end.

(** [s.rstrip('/')] *)
Fixpoint rstrip_sep (s : string) : string :=
  match s with
  | "" => ""
  | String c s' =>
      let r := rstrip_sep s' in
      if is_sep c && Py.is_empty r then "" else String c r
  end.

(** [p[:p.rfind('/') + 1]] *)
Fixpoint upto_last_sep (p : string) : string :=
  match p with
  | "" => ""
  | String c p' =>
      if has_sep p' then String c (upto_last_sep p')
      else if is_sep c then String c "" else ""
  end.

(** [s.split('/')] ; [cur] is the component being read. *)
Fixpoint split_sep (cur : string) (s : string) : list string :=
  match s with
  | "" => [cur]
  | String c s' =>
      if is_sep c then cur :: split_sep "" s'
      else split_sep (cur +:+ String c "") s'
  end.

Definition isabs (s : string) : bool := Py.startswith "/" s.

Definition join (a b : string) : string :=
  if Py.startswith "/" b then b
  else if Py.is_empty a || Py.endswith "/" a then a +:+ b
  else a +:+ "/" +:+ b.

Definition dirname (p : string) : string :=
  let head := upto_last_sep p in
  if negb (Py.is_empty head) && negb (all_sep head) then rstrip_sep head
  else head.

(** One turn of the loop of [normpath] over the components. *)
Definition norm_step (initial_slashes : nat) (new_comps : list string)
    (comp : string) : list string :=
  if bool_decide (comp = "") || bool_decide (comp = ".") then new_comps
  else if negb (bool_decide (comp = ".."))
          || (bool_decide (initial_slashes = 0)
              && bool_decide (new_comps = []))
          || bool_decide (last new_comps = Some "..")
  then new_comps ++ [comp]
  else removelast new_comps.

Definition normpath (path : string) : string :=
  if Py.is_empty path then "."
  else
    let initial_slashes :=
      if Py.startswith "/" path then
        if Py.startswith "//" path && negb (Py.startswith "///" path)
        then 2 else 1
      else 0 in
    let comps := fold_left (norm_step initial_slashes) (split_sep "" path) [] in
    let path' :=
      String.concat "/" comps in
    let path'' :=
      match initial_slashes with
      | 0 => path'
      | 1 => "/" +:+ path'
      | _ => "//" +:+ path'
      end in
    if Py.is_empty path'' then "." else path''.

Definition abspath (cwd : string) (path : string) : string :=
  normpath (if isabs path then path else join cwd path).

Definition os_path (cwd : string) : OsPath :=
  Build_OsPath (abspath cwd) join dirname.

End Posix.

(** ** The program state and its monad *)

(** A node of the file system. [Regular lines] is a text file that decodes
    without error; [lines] are the strings that iterating over the open file
    yields, each with its line terminator. [Unreadable] is a path that
    exists and that [open] refuses (a directory, a file without read
    permission). A file that [open] accepts and that fails to decode while
    its lines are read is not a node of this model: what is proved below is
    about file systems whose text files decode. *)
Inductive node : Type :=
  | Regular (lines : list string)
  | Unreadable.

(** The exception of the model is the one [open] raises. The
    [UnicodeDecodeError] that reading a line can raise, and an error of
    [f.write], are outside the model: what is proved of a call that raises
    is proved of a call that [open] stopped, and no property says which
    exceptions the program can raise. *)
Inductive exn : Type :=
  | OSError (filename : string).

(** - [parsed_files]: the set object shared by the recursive calls;
    - [stdout]: what [print] wrote, oldest first;
    - [opened]: the paths given to [open(_, 'r')], oldest first;
    - [written]: the files written, as (path, content), oldest first. *)
Record state : Type := State {
  parsed_files : gset string;
  stdout : list string;
  opened : list string;
  written : list (string * string)
}.

Inductive result (A : Type) : Type :=
  | Ok (a : A) (st : state)
  | Raised (e : exn) (st : state)
  | OutOfFuel.
Arguments Ok {A} a st.
Arguments Raised {A} e st.
Arguments OutOfFuel {A}.

Definition M (A : Type) : Type := state -> result A.

Definition ret {A} (a : A) : M A := fun st => Ok a st.

Definition bind {A B} (m : M A) (f : A -> M B) : M B :=
  fun st =>
    match m st with
    | Ok a st' => f a st'
    | Raised e st' => Raised e st'
    | OutOfFuel => OutOfFuel
    end.

Declare Scope io_scope.
Delimit Scope io_scope with io.
Notation "'let*' x := m 'in' k" := (bind m (fun x => k))
  (at level 10, x pattern, m at level 100, k at level 200) : io_scope.
Notation "m ;; k" := (bind m (fun _ => k))
  (at level 100, k at level 200, right associativity) : io_scope.
Local Open Scope io_scope.

Definition raise {A} (e : exn) : M A := fun st => Raised e st.

Definition out_of_fuel {A} : M A := fun _ => OutOfFuel.

(** The state after [print(msg)]. *)
Definition printed (msg : string) (st : state) : state :=
  {| parsed_files := parsed_files st;
     stdout := stdout st ++ [msg];
     opened := opened st;
     written := written st |}.

Definition print (msg : string) : M unit :=
  fun st => Ok tt (printed msg st).

Definition get_parsed_files : M (gset string) :=
  fun st => Ok (parsed_files st) st.

Definition set_parsed_files (ps : gset string) : M unit :=
  fun st =>
    Ok tt {| parsed_files := ps;
             stdout := stdout st;
             opened := opened st;
             written := written st |}.

(** [for x in l: acc = body(acc, x)] *)
Fixpoint for_each {A B} (l : list A) (acc : B) (body : B -> A -> M B) : M B :=
  match l with
  | [] => ret acc
  | x :: l' => let* acc' := body acc x in for_each l' acc' body
  end.

(** ** [collections.OrderedDict] *)

Module OrderedDict.

(** The items in iteration order; the keys are pairwise distinct. *)
Definition t : Type := list (string * option string).

Definition empty : t := [].

(** [d[k] = v]: a key already in [d] keeps its position and takes the new
    value; a new key goes to the end. *)
Fixpoint setitem (d : t) (k : string) (v : option string) : t :=
  match d with
  | [] => [(k, v)]
  | (k', v') :: d' =>
      if bool_decide (k' = k) then (k', v) :: d'
      else (k', v') :: setitem d' k v
  end.

(** [d.items()] *)
Definition items (d : t) : list (string * option string) := d.

(** [d.get(k)] *)
Fixpoint get (d : t) (k : string) : option (option string) :=
  match d with
  | [] => None
  | (k', v') :: d' => if bool_decide (k' = k) then Some v' else get d' k
  end.

Definition keys (d : t) : list string := d.*1.

End OrderedDict.

(** ** The pattern of [parse_requirement_line] *)

(** [[A-Za-z0-9_\-\.]] *)
Definition ident_char (c : ascii) : bool :=
  Re.in_range "A" "Z" c || Re.in_range "a" "z" c || Re.in_range "0" "9" c
  || bool_decide (c = "_"%char) || bool_decide (c = "-"%char)
  || bool_decide (c = "."%char).

(** [[A-Za-z0-9_,\-\.]] *)
Definition extras_char (c : ascii) : bool :=
  Re.in_range "A" "Z" c || Re.in_range "a" "z" c || Re.in_range "0" "9" c
  || bool_decide (c = "_"%char) || bool_decide (c = ","%char)
  || bool_decide (c = "-"%char) || bool_decide (c = "."%char).

(** [\[[A-Za-z0-9_,\-\.]+\]] *)
Definition extras_re : Re.regex :=
  Re.Cat (Re.lit "[") (Re.Cat (Re.Plus (Re.In_ extras_char)) (Re.lit "]")).

(** [[A-Za-z0-9_\-\.]+(?:\[[A-Za-z0-9_,\-\.]+\])?], the inside of group 1 *)
Definition package_re : Re.regex :=
  Re.Cat (Re.Plus (Re.In_ ident_char)) (Re.Opt extras_re).

(** Group 2, any number of [.], and the final [$]. *)
Definition end_re : Re.regex :=
  Re.Cat (Re.Group 2 (Re.Star (Re.In_ Re.dot))) Re.Eol.

(** The pattern of the source: [^], group 1, [\s*], group 2, [$]. *)
Definition requirement_re : Re.regex :=
  Re.Cat Re.Bol
    (Re.Cat (Re.Group 1 package_re)
       (Re.Cat (Re.Star (Re.In_ Py.isspace)) end_re)).

(** ** The program *)

Section Program.

Context `{OsPath}.

(** The file system the program runs in, and the paths [open(_, 'w')]
    accepts. *)
Variable fs : gmap string node.
Variable writable : string -> bool.

(** [os.path.exists] *)
Definition path_exists (path : string) : bool :=
  bool_decide (is_Some (fs !! path)).

(** [open(path, 'r')], giving the lines the file object yields. *)
Definition open_read (path : string) : M (list string) :=
  fun st =>
    let st' := {| parsed_files := parsed_files st;
                  stdout := stdout st;
                  opened := opened st ++ [path];
                  written := written st |} in
    match fs !! path with
    | Some (Regular lines) => Ok lines st'
    | Some Unreadable => Raised (OSError path) st'
    | None => Raised (OSError path) st'
    end.

(** [with open(path, 'w') as f: f.write(content)], as one step: when [open]
    accepts the path the file holds the whole content. The state between
    [open], which creates or empties the file, and the end of [f.write] is
    not modelled, so [written] says what the files hold after a call that
    returned, and nothing about a call that raised. *)
Definition write_file (path content : string) : M unit :=
  fun st =>
    if writable path
    then Ok tt {| parsed_files := parsed_files st;
                  stdout := stdout st;
                  opened := opened st;
                  written := written st ++ [(path, content)] |}
    else Raised (OSError path) st.

(** [parsed_files.add(path)] *)
Definition add_parsed_file (path : string) : M unit :=
  fun st =>
    Ok tt {| parsed_files := {[path]} ∪ parsed_files st;
             stdout := stdout st;
             opened := opened st;
             written := written st |}.

(** The lines [line.startswith('-r') or line.startswith('--requirement')]
    selects. *)
Definition is_include (line : string) : bool :=
  Py.startswith "-r" line || Py.startswith "--requirement" line.

(** The body of the loop [for line in f] of [parse_requirements]:
    [requirements] is the list built so far, [absolute_path] the file being
    read, and [recurse] the recursive call
    [parse_requirements(_, parsed_files)]. *)
Definition process_line (recurse : string -> M (list string))
    (absolute_path : string) (requirements : list string) (line : string)
  : M (list string) :=
  let line := Py.strip line in
  if Py.is_empty line || Py.startswith "#" line then
    ret requirements
  else if is_include line then
    match Py.split line with
    | [_; nested_req] =>
        let nested_path := join (dirname absolute_path) nested_req in
        let* nested := recurse nested_path in
        ret (requirements ++ nested)
    | _ =>
        print ("Unrecognized requirement line: " +:+ line) ;;
        ret requirements
    end
  else
    ret (requirements ++ [line]).

(** [parse_requirements(file_path, parsed_files)] where [parsed_files] is
    the set held by the state. [fuel] bounds the depth of the recursion;
    it never runs out when it exceeds the number of files that exist and
    are not yet in the set ([parse_requirements_fuel_resolved]). *)
Fixpoint parse_requirements_fuel (fuel : nat) (file_path : string)
  : M (list string) :=
  match fuel with
  | 0 => out_of_fuel
  | S fuel' =>
      let requirements : list string := [] in
      let absolute_path := abspath file_path in
      let* parsed := get_parsed_files in
      if bool_decide (absolute_path ∈ parsed) then
        print ("Already parsed " +:+ absolute_path
               +:+ ", skipping to avoid circular includes.") ;;
        ret requirements
      else if negb (path_exists absolute_path) then
        print ("Warning: " +:+ absolute_path +:+ " does not exist. Skipping.") ;;
        ret requirements
      else
        add_parsed_file absolute_path ;;
        let* f := open_read absolute_path in
        for_each f requirements
          (process_line (parse_requirements_fuel fuel') absolute_path)
  end.

(** [parse_requirements(file_path)]: [parsed_files] is [None], so the call
    starts from a new, empty set. *)
Definition parse_requirements (file_path : string) : M (list string) :=
  set_parsed_files ∅ ;;
  parse_requirements_fuel (S (size fs)) file_path.

(** The pure part of [parse_requirement_line]: [None] when the pattern does
    not match. Group 1 is not optional in the pattern, so it takes part in
    every match ([requirement_re_group1]). *)
Definition match_requirement (line : string) : option (string * option string) :=
  match Re.re_match requirement_re line with
  | None => None
  | Some m =>
      let package := default "" (Re.group m 1) in
      let version := Re.group m 2 in
      let version :=
        if Py.truthy version then Py.strip <$> version else None in
      Some (package, version)
  end.

Definition parse_requirement_line (line : string)
  : M (string * option string) :=
  match match_requirement line with
  | None =>
      print ("Warning: Could not parse requirement line: " +:+ line) ;;
      ret (line, None)
  | Some (package, version) => ret (package, version)
  end.

End Program.

(** ** The manifest generator *)

(** A double-quoted string of the template. *)
Definition quoted (s : string) : string := Py.dquote +:+ s +:+ Py.dquote.

(** The first literal of [generate_pyproject_toml], line by line. *)
Definition metadata_block : string :=
  "[tool.poetry]" +:+ Py.nl
  +:+ "name = " +:+ quoted "your-project-name" +:+ Py.nl
  +:+ "version = " +:+ quoted "0.1.0" +:+ Py.nl
  +:+ "description = " +:+ quoted "A short description of your project." +:+ Py.nl
  +:+ "authors = [" +:+ quoted "Your Name <you@example.com>" +:+ "]" +:+ Py.nl
  +:+ Py.nl.

Definition dependencies_header : string :=
  "[tool.poetry.dependencies]" +:+ Py.nl.

Definition python_line : string :=
  "python = " +:+ quoted "^3.8" +:+ Py.nl.

Definition toml_head : string :=
  metadata_block +:+ dependencies_header +:+ python_line.

(** The last literal of [generate_pyproject_toml]. *)
Definition build_system_block : string :=
  Py.nl +:+ Py.nl
  +:+ "[build-system]" +:+ Py.nl
  +:+ "requires = [" +:+ quoted "poetry-core>=1.0.0" +:+ "]" +:+ Py.nl
  +:+ "build-backend = " +:+ quoted "poetry.core.masonry.api" +:+ Py.nl.

(** What one turn of the loop over [dependencies.items()] adds. *)
Definition dependency_line (item : string * option string) : string :=
  let '(pkg, ver) := item in
  if Py.truthy ver
  then pkg +:+ " = " +:+ quoted (default "" ver) +:+ Py.nl
  else pkg +:+ " = " +:+ quoted "*" +:+ Py.nl.

Definition generate_pyproject_toml (dependencies : OrderedDict.t) : string :=
  let toml_content := toml_head in
  let toml_content :=
    fold_left (fun toml_content item => toml_content +:+ dependency_line item)
      (OrderedDict.items dependencies) toml_content in
  toml_content +:+ build_system_block.

(** ** The entry point *)

Section Main.

Context `{OsPath}.
Variable fs : gmap string node.
Variable writable : string -> bool.

(** The loop of [main] that fills the dictionary. *)
Definition collect_dependencies (reqs : list string) : M OrderedDict.t :=
  for_each reqs OrderedDict.empty (fun dependencies req =>
    let* (pkg, ver) := parse_requirement_line req in
    ret (OrderedDict.setitem dependencies pkg ver)).

(** [main()], after [argparse] has produced [args.input] and
    [args.output]. *)
Definition main (input output : string) : M unit :=
  let* reqs := parse_requirements fs input in
  let* dependencies := collect_dependencies reqs in
  let toml := generate_pyproject_toml dependencies in
  write_file writable output toml ;;
  print ("Successfully generated " +:+ output).

End Main.

(** ** Definitions used to state the properties *)

(** *** States *)

(** The state of a program that has done nothing yet. *)
Definition initial_state : state :=
  {| parsed_files := ∅; stdout := []; opened := []; written := [] |}.

(** The state after a sequence of [print]s. *)
Definition logged (msgs : list string) (st : state) : state :=
  {| parsed_files := parsed_files st;
     stdout := stdout st ++ msgs;
     opened := opened st;
     written := written st |}.

(** The state after [parsed_files.add(path)] and [open(path, 'r')]. *)
Definition entered (path : string) (st : state) : state :=
  {| parsed_files := {[path]} ∪ parsed_files st;
     stdout := stdout st;
     opened := opened st ++ [path];
     written := written st |}.

(** The state in which [parse_requirements(file_path)] starts its work:
    [parsed_files] is a new set. *)
Definition fresh (st : state) : state :=
  {| parsed_files := ∅;
     stdout := stdout st;
     opened := opened st;
     written := written st |}.

(** The state after [main] has written the manifest and printed its last
    message. *)
Definition finished (output toml : string) (st : state) : state :=
  {| parsed_files := parsed_files st;
     stdout := stdout st ++ ["Successfully generated " +:+ output];
     opened := opened st;
     written := written st ++ [(output, toml)] |}.

(** A result without what was printed: what a caller that does not read
    [stdout] can see of it. *)
Definition silent (st : state) : state :=
  {| parsed_files := parsed_files st;
     stdout := [];
     opened := opened st;
     written := written st |}.

Definition quiet {A} (r : result A) : result A :=
  match r with
  | Ok a st => Ok a (silent st)
  | Raised e st => Raised e (silent st)
  | OutOfFuel => OutOfFuel
  end.

(** *** The include resolver *)

(** The diagnostics of the include resolver. *)
Definition already_parsed_msg (absolute_path : string) : string :=
  "Already parsed " +:+ absolute_path
  +:+ ", skipping to avoid circular includes.".

Definition missing_msg (absolute_path : string) : string :=
  "Warning: " +:+ absolute_path +:+ " does not exist. Skipping.".

Definition unrecognized_msg (line : string) : string :=
  "Unrecognized requirement line: " +:+ line.

(** The raw requirement lines of a file without include directives: its
    lines, stripped, without the empty ones and the comments. *)
Definition is_blank_or_comment (line : string) : bool :=
  Py.is_empty line || Py.startswith "#" line.


(** [st'] is a state reached from [st] by reading files: the set of parsed
    files has grown, and each file opened in between was opened once, was
    not in the set before and is in it now. *)
Definition extends (st st' : state) : Prop :=
  parsed_files st ⊆ parsed_files st' ∧
  ∃ new : list string,
    opened st' = opened st ++ new ∧ NoDup new ∧
    ∀ p, p ∈ new → (p ∉ parsed_files st) ∧ p ∈ parsed_files st'.

(** A call started in [st] came back: it did not run out of fuel, it
    reached a state that extends [st], and when it came back with an
    exception, that is the refusal to open a path that exists and is not
    readable. *)
Definition resolved (fs : gmap string node) {A} (st : state) (r : result A)
  : Prop :=
  match r with
  | Ok _ st' => extends st st'
  | Raised (OSError p) st' => extends st st' ∧ fs !! p = Some Unreadable
  | OutOfFuel => False
  end.

(** The number of existing files that are not in [parsed_files]. *)
Definition unvisited (fs : gmap string node) (st : state) : nat :=
  size (dom fs ∖ parsed_files st).

(** Every path that exists is a readable text file. *)
Definition all_readable (fs : gmap string node) : Prop :=
  ∀ p, fs !! p ≠ Some Unreadable.

(** *** The line parser *)

(** What [parse_requirement_line] returns for [line], without its
    diagnostic. *)
Definition requirement_of (line : string) : string * option string :=
  default (line, None) (match_requirement line).

(** The diagnostics of [parse_requirement_line] over a list of lines. *)
Definition parse_warnings (reqs : list string) : list string :=
  omap (fun line =>
          match match_requirement line with
          | None => Some ("Warning: Could not parse requirement line: " +:+ line)
          | Some _ => None
          end) reqs.

(** The longest prefix of [s] made of characters of [cls], and the rest. *)
Fixpoint span (cls : ascii -> bool) (s : string) : string * string :=
  match s with
  | "" => ("", "")
  | String c s' =>
      if cls c then (String c (span cls s').1, (span cls s').2) else ("", s)
  end.

(** A bracketed list of extras at the head of [s], and the rest. *)
Definition take_extras (s : string) : option (string * string) :=
  match s with
  | String c s' =>
      if bool_decide (c = "["%char) then
        let (names, r) := span extras_char s' in
        match r with
        | String d r' =>
            if negb (Py.is_empty names) && bool_decide (d = "]"%char)
            then Some ("[" +:+ names +:+ "]", r')
            else None
        | "" => None
        end
      else None
  | "" => None
  end.

(** [Some v] when [t] is [v] followed by nothing or by one final line
    feed, and [v] has no line feed: what the end of the pattern, group 2
    and [$], accepts, with the text of the group. *)
Definition version_tail (t : string) : option string :=
  let v := (span Re.dot t).1 in
  let eol := (span Re.dot t).2 in
  if Py.is_empty eol || bool_decide (eol = Py.nl) then Some v else None.

(** The text after the package token, without its leading whitespace. *)
Definition version_text (rest : string) : option string :=
  version_tail (Py.lstrip rest).

(** The search that [Star (In_ cls)] does: read as many characters of
    [cls] as there are, then give them back one by one until the rest of
    the pattern, [k], accepts. *)
Fixpoint backtrack (cls : ascii -> bool) (s : string) (g : Re.groups)
    (k : Re.cont) : option Re.groups :=
  match s with
  | "" => k s g
  | String c s' =>
      if cls c then
        match backtrack cls s' g k with
        | Some g' => Some g'
        | None => k s g
        end
      else k s g
  end.

(** The two groups of the pattern, found without backtracking: the
    identifier is the longest one, the extras are taken when they are
    there. *)
Definition split_requirement (line : string) : option (string * string) :=
  let (name, rest) := span ident_char line in
  if Py.is_empty name then None
  else
    match take_extras rest with
    | Some (extras, rest') =>
        match version_text rest' with
        | Some v => Some (name +:+ extras, v)
        | None => None
        end
    | None =>
        match version_text rest with
        | Some v => Some (name, v)
        | None => None
        end
    end.

(** No line feed in [s]. *)
Fixpoint no_lf (s : string) : bool :=
  match s with
  | "" => true
  | String c s' => Re.dot c && no_lf s'
  end.

(** *** The dictionary *)

(** [for (k, v) in l: d[k] = v] *)
Definition set_all (d : OrderedDict.t) (l : list (string * option string))
  : OrderedDict.t :=
  fold_left (fun d kv => OrderedDict.setitem d kv.1 kv.2) l d.

(** Following the words of the specification: the keys of a list of
    requirements in the order of their first occurrence. *)
Fixpoint first_occurrences (l : list string) : list string :=
  match l with
  | [] => []
  | k :: l' => k :: filter (fun k' => k' ≠ k) (first_occurrences l')
  end.

(** Following the words of the specification: the constraint of the last
    requirement of [l] for the package [k]. *)
Fixpoint last_write (l : list (string * option string)) (k : string)
  : option (option string) :=
  match l with
  | [] => None
  | (k', v) :: l' =>
      match last_write l' k with
      | Some v' => Some v'
      | None => if bool_decide (k' = k) then Some v else None
      end
  end.

(** *** The manifest *)

(** Following the words of the specification: the line of the manifest
    for one dependency, with the constraint between quotes when there is
    one and the wildcard when there is none. *)
Definition spec_dependency_line (item : string * option string) : string :=
  match item with
  | (pkg, Some constraint) => pkg +:+ " = " +:+ quoted constraint +:+ Py.nl
  | (pkg, None) => pkg +:+ " = " +:+ quoted "*" +:+ Py.nl
  end.

(** The lines that the loop of [generate_pyproject_toml] writes. *)
Definition dependency_lines (dependencies : OrderedDict.t) : list string :=
  dependency_line <$> OrderedDict.items dependencies.

(** *** File systems *)

(** The file system of the example of the specification, in the working
    directory [/w]. *)
Definition example_fs : gmap string node :=
  <["/w/requirements.txt" :=
      Regular ["a==1.0" +:+ Py.nl; "-r sub.txt" +:+ Py.nl]]>
    (<["/w/sub.txt" := Regular ["b==2.0" +:+ Py.nl; "a==3.0" +:+ Py.nl]]> ∅).

(** Two files that include each other. *)
Definition circular_fs : gmap string node :=
  <["/w/a.txt" := Regular ["x==1" +:+ Py.nl; "-r b.txt" +:+ Py.nl]]>
    (<["/w/b.txt" := Regular ["-r a.txt" +:+ Py.nl; "y==2" +:+ Py.nl]]> ∅).


(** *** What a call of the resolver leaves behind *)

(** [st'] is reached from [st] by calls of the resolver: nothing was
    written, what was printed is still there, and the set of parsed files
    has grown by exactly the paths opened in between, which all exist. *)
Definition grows (fs : gmap string node) (st st' : state) : Prop :=
  written st' = written st
  ∧ (∃ out : list string, stdout st' = stdout st ++ out)
  ∧ ∃ new : list string,
      opened st' = opened st ++ new
      ∧ parsed_files st' = parsed_files st ∪ list_to_set new
      ∧ ∀ p, p ∈ new → is_Some (fs !! p).

(** Every line of [reqs] is a line of a readable file that is in the set
    [after] and not in [before], stripped, and is neither empty, nor a
    comment, nor an include directive. *)
Definition sourced (fs : gmap string node) (before after : gset string)
    (reqs : list string) : Prop :=
  ∀ l, l ∈ reqs →
    ∃ p lines raw,
      p ∈ after ∧ (p ∉ before)
      ∧ fs !! p = Some (Regular lines) ∧ raw ∈ lines ∧ l = Py.strip raw
      ∧ is_blank_or_comment l = false ∧ is_include l = false.

(** What holds when a call started in [st], with the files of [before]
    already parsed, comes back. *)
Definition accounted (fs : gmap string node) (before : gset string)
    (st : state) (r : result (list string)) : Prop :=
  match r with
  | Ok reqs st' => grows fs st st' ∧ sourced fs before (parsed_files st') reqs
  | Raised e st' =>
      grows fs st st'
      ∧ ∃ p, e = OSError p ∧ fs !! p = Some Unreadable
             ∧ last (opened st') = Some p
  | OutOfFuel => True
  end.

(** The result [r] with [acc] in front of its list. *)
Definition prepend (acc : list string) (r : result (list string))
  : result (list string) :=
  match r with
  | Ok reqs st => Ok (acc ++ reqs) st
  | Raised e st => Raised e st
  | OutOfFuel => OutOfFuel
  end.

(** A file that includes a directory. *)
Definition broken_fs : gmap string node :=
  <["/w/requirements.txt" :=
      Regular ["a==1" +:+ Py.nl; "-r dir" +:+ Py.nl; "b==2" +:+ Py.nl]]>
    (<["/w/dir" := Unreadable]> ∅).

(** Every character of [s] is in [cls]. *)
Fixpoint all_chars (cls : ascii -> bool) (s : string) : bool :=
  match s with
  | "" => true
  | String c s' => cls c && all_chars cls s'
  end.

(** *** The words of the specification on directives and on the text *)

(** Following the words of the specification: the line starts with an
    include directive token, that is, its first whitespace-separated field
    is [-r] or [--requirement]. *)
Definition spec_is_include (line : string) : bool :=
  match Py.split line with
  | directive :: _ =>
      bool_decide (directive = "-r") || bool_decide (directive = "--requirement")
  | [] => false
  end.

(** The lines of a text: [text.split('\n')]; [cur] is the line being
    read. *)
Fixpoint lines_from (cur : string) (text : string) : list string :=
  match text with
  | "" => [cur]
  | String c text' =>
      if bool_decide (c = Py.LF) then cur :: lines_from "" text'
      else lines_from (cur +:+ String c "") text'
  end.

Definition text_lines (text : string) : list string := lines_from "" text.

(** The lines after the first line equal to [header]. *)
Fixpoint after_header (header : string) (ls : list string) : list string :=
  match ls with
  | [] => []
  | l :: ls' => if bool_decide (l = header) then ls' else after_header header ls'
  end.

(** The lines up to the first empty one. *)
Fixpoint until_blank (ls : list string) : list string :=
  match ls with
  | [] => []
  | l :: ls' => if Py.is_empty l then [] else l :: until_blank ls'
  end.

(** The lines of the section [[name]] of a manifest: those after its
    header, up to the first empty line. *)
Definition section_lines (name : string) (text : string) : list string :=
  until_blank (after_header ("[" +:+ name +:+ "]") (text_lines text)).

(** Following the words of the specification: the manifest is the metadata
    block, the header of the dependencies section, one line per dependency
    and the build-system block. *)
Definition spec_manifest (dependencies : list (string * option string))
  : string :=
  "[tool.poetry]" +:+ Py.nl
  +:+ "name = " +:+ Py.dquote +:+ "your-project-name" +:+ Py.dquote +:+ Py.nl
  +:+ "version = " +:+ Py.dquote +:+ "0.1.0" +:+ Py.dquote +:+ Py.nl
  +:+ "description = " +:+ Py.dquote
  +:+ "A short description of your project." +:+ Py.dquote +:+ Py.nl
  +:+ "authors = [" +:+ Py.dquote +:+ "Your Name <you@example.com>"
  +:+ Py.dquote +:+ "]" +:+ Py.nl
  +:+ Py.nl
  +:+ "[tool.poetry.dependencies]" +:+ Py.nl
  +:+ String.concat "" (spec_dependency_line <$> dependencies)
  +:+ Py.nl +:+ Py.nl
  +:+ "[build-system]" +:+ Py.nl
  +:+ "requires = [" +:+ Py.dquote +:+ "poetry-core>=1.0.0" +:+ Py.dquote
  +:+ "]" +:+ Py.nl
  +:+ "build-backend = " +:+ Py.dquote +:+ "poetry.core.masonry.api"
  +:+ Py.dquote +:+ Py.nl.

(** * Properties *)

(** ** Strings *)

Lemma str_app_cons (c : ascii) (s t : string) :
  String c s +:+ t = String c (s +:+ t).
Proof. reflexivity. Qed.

Lemma str_app_nil_l (s : string) : "" +:+ s = s.
Proof. reflexivity. Qed.

Lemma str_app_nil_r (s : string) : s +:+ "" = s.
Proof.
  induction s as [|c s IH]; [done|]. by rewrite str_app_cons, IH.
Qed.

Lemma str_app_assoc (s1 s2 s3 : string) : (s1 +:+ s2) +:+ s3 = s1 +:+ (s2 +:+ s3).
Proof.
  induction s1 as [|c s1 IH]; [done|]. by rewrite !str_app_cons, IH.
Qed.

Lemma str_length_app (s1 s2 : string) :
  String.length (s1 +:+ s2) = String.length s1 + String.length s2.
Proof.
  induction s1 as [|c s1 IH]; [done|]. rewrite str_app_cons. simpl. by rewrite IH.
Qed.

Lemma is_empty_true (s : string) : Py.is_empty s = true ↔ s = "".
Proof. destruct s; simpl; split; congruence. Qed.

Lemma is_empty_false (s : string) : Py.is_empty s = false ↔ s ≠ "".
Proof. destruct s; simpl; split; congruence. Qed.

Lemma concat_cons (x : string) (l : list string) :
  String.concat "" (x :: l) = x +:+ String.concat "" l.
Proof. destruct l; simpl; [by rewrite str_app_nil_r | by rewrite str_app_nil_l]. Qed.

Lemma split_from_cons (cur s : string) :
  Py.is_empty cur = false → ∃ field fields, Py.split_from cur s = field :: fields.
Proof.
  revert cur. induction s as [|c s IH]; intros cur Hcur; simpl.
  - rewrite Hcur. eauto.
  - destruct (Py.isspace c); [rewrite Hcur; eauto|].
    apply IH. by destruct cur.
Qed.

(** A line that begins with a character that is not whitespace has a first
    field. *)
Lemma split_cons (c : ascii) (s : string) :
  Py.isspace c = false → ∃ field fields, Py.split (String c s) = field :: fields.
Proof.
  intros Hc. unfold Py.split. simpl. rewrite Hc. by apply split_from_cons.
Qed.

(** What [lstrip], and so [strip], leaves starts with a character that is
    not whitespace. *)
Lemma lstrip_head (s : string) (c : ascii) (t : string) :
  Py.lstrip s = String c t → Py.isspace c = false.
Proof.
  induction s as [|d s IH]; [done|]. simpl.
  destruct (Py.isspace d) eqn:Hd; [done|]. by intros [= <- _].
Qed.

Lemma startswith_app (p rest : string) : Py.startswith p (p +:+ rest) = true.
Proof.
  induction p as [|c p IH]; [done|]. rewrite str_app_cons. simpl.
  by rewrite bool_decide_eq_true_2, IH.
Qed.

(** The first field of a text is at its start, when the run being read is
    not empty or the text does not start with whitespace. *)
Lemma split_from_prefix (s cur field : string) (fields : list string) :
  cur ≠ "" ∨ (∃ c t, s = String c t ∧ Py.isspace c = false) →
  Py.split_from cur s = field :: fields →
  ∃ rest, cur +:+ s = field +:+ rest.
Proof.
  revert cur. induction s as [|c s IH]; intros cur Hstart; simpl.
  - destruct Hstart as [Hcur | (c & t & Heq & _)]; [|done].
    apply is_empty_false in Hcur. rewrite Hcur. intros [= <- _]. by exists "".
  - destruct (Py.isspace c) eqn:Hc.
    + destruct Hstart as [Hcur | (c' & t & Heq & Hc')];
        [|injection Heq as <- <-; congruence].
      apply is_empty_false in Hcur. rewrite Hcur. intros [= <- _].
      by exists (String c s).
    + intros Hsplit. destruct (IH (cur +:+ String c "")) as [rest Hrest];
        [left; by destruct cur | done |].
      exists rest. rewrite <- Hrest, str_app_assoc.
      by rewrite str_app_cons, str_app_nil_l.
Qed.

(** ** The manifest generator *)

Lemma fold_dependency_lines (items : list (string * option string)) (acc : string) :
  fold_left (fun toml_content item => toml_content +:+ dependency_line item)
    items acc
  = acc +:+ String.concat "" (dependency_line <$> items).
Proof.
  revert acc. induction items as [|item items IH]; intros acc.
  - simpl. by rewrite str_app_nil_r.
  - rewrite fmap_cons, concat_cons. simpl fold_left.
    by rewrite IH, str_app_assoc.
Qed.

Lemma generate_pyproject_toml_eq (dependencies : OrderedDict.t) :
  generate_pyproject_toml dependencies
  = toml_head +:+ String.concat "" (dependency_lines dependencies)
    +:+ build_system_block.
Proof.
  unfold generate_pyproject_toml, dependency_lines.
  by rewrite fold_dependency_lines, str_app_assoc.
Qed.

Lemma dependency_line_present (pkg constraint : string) :
  constraint ≠ "" →
  dependency_line (pkg, Some constraint)
  = pkg +:+ " = " +:+ Py.dquote +:+ constraint +:+ Py.dquote +:+ Py.nl.
Proof.
  intros Hne. unfold dependency_line, quoted, Py.truthy.
  apply is_empty_false in Hne. rewrite Hne. simpl.
  by rewrite !str_app_assoc.
Qed.

Lemma dependency_line_absent (pkg : string) (ver : option string) :
  ver = None ∨ ver = Some "" →
  dependency_line (pkg, ver) = pkg +:+ " = " +:+ quoted "*" +:+ Py.nl.
Proof. by intros [-> | ->]. Qed.

(** C9 (as amended). For every dependency mapping the manifest is, in this
    order: the metadata block with its placeholder name, version,
    description and authors; the header of the dependencies section; the
    fixed line [python = "^3.8"]; one line per item of the mapping in
    iteration order; the build-system block that names the build backend.
    The line of [pkg] is [pkg = "constraint"] when there is a constraint,
    and [pkg = "*"] when there is none (a constraint that is the empty
    string, which the line parser never returns, counts as none); package
    and constraint are copied as they are, without escaping. *)
Theorem generate_pyproject_toml_template (dependencies : OrderedDict.t) :
  generate_pyproject_toml dependencies
  = "[tool.poetry]" +:+ Py.nl
    +:+ "name = " +:+ Py.dquote +:+ "your-project-name" +:+ Py.dquote +:+ Py.nl
    +:+ "version = " +:+ Py.dquote +:+ "0.1.0" +:+ Py.dquote +:+ Py.nl
    +:+ "description = " +:+ Py.dquote
    +:+ "A short description of your project." +:+ Py.dquote +:+ Py.nl
    +:+ "authors = [" +:+ Py.dquote +:+ "Your Name <you@example.com>"
    +:+ Py.dquote +:+ "]" +:+ Py.nl
    +:+ Py.nl
    +:+ "[tool.poetry.dependencies]" +:+ Py.nl
    +:+ "python = " +:+ Py.dquote +:+ "^3.8" +:+ Py.dquote +:+ Py.nl
    +:+ String.concat ""
          ((λ item : string * option string,
              match item.2 with
              | Some (String c constraint) =>
                  item.1 +:+ " = " +:+ Py.dquote +:+ String c constraint
                  +:+ Py.dquote +:+ Py.nl
              | Some "" | None =>
                  item.1 +:+ " = " +:+ Py.dquote +:+ "*" +:+ Py.dquote +:+ Py.nl
              end) <$> OrderedDict.items dependencies)
    +:+ Py.nl +:+ Py.nl
    +:+ "[build-system]" +:+ Py.nl
    +:+ "requires = [" +:+ Py.dquote +:+ "poetry-core>=1.0.0" +:+ Py.dquote
    +:+ "]" +:+ Py.nl
    +:+ "build-backend = " +:+ Py.dquote +:+ "poetry.core.masonry.api"
    +:+ Py.dquote +:+ Py.nl.
Proof.
  rewrite generate_pyproject_toml_eq. unfold dependency_lines.
  set (line := λ item : string * option string, _).
  assert (dependency_line <$> OrderedDict.items dependencies
          = line <$> OrderedDict.items dependencies) as ->; [|reflexivity].
  apply list_fmap_ext. intros i [pkg ver] _. subst line. cbn [fst snd].
  destruct ver as [[|c constraint]|].
  - by rewrite dependency_line_absent by auto.
  - by rewrite dependency_line_present.
  - by rewrite dependency_line_absent by auto.
Qed.

(** C9 (as stated) fails for every mapping, the empty one to begin with:
    between the header of the dependencies section and the lines of the
    mapping the generator writes the line [python = "^3.8"], which the
    template of the claim does not have. *)
Lemma generate_pyproject_toml_not_spec_manifest :
  generate_pyproject_toml OrderedDict.empty ≠ spec_manifest []
  ∧ section_lines "tool.poetry.dependencies"
      (generate_pyproject_toml OrderedDict.empty)
    = ["python = " +:+ Py.dquote +:+ "^3.8" +:+ Py.dquote]
  ∧ section_lines "tool.poetry.dependencies" (spec_manifest []) = []
  ∧ ¬ (∀ dependencies,
         generate_pyproject_toml dependencies = spec_manifest dependencies).
Proof.
  assert (generate_pyproject_toml OrderedDict.empty ≠ spec_manifest [])
    as Hne by (vm_compute; discriminate).
  split_and!; [done | reflexivity | reflexivity |].
  intros Hspec. apply Hne, Hspec.
Qed.

(** A constraint that is the empty string is written as the wildcard: the
    generator tests the truth value of the constraint. *)
Example generate_pyproject_toml_empty_constraint :
  generate_pyproject_toml [("foo", Some "")]
  = toml_head +:+ ("foo = " +:+ quoted "*" +:+ Py.nl) +:+ build_system_block.
Proof. reflexivity. Qed.

(** C10. Whatever the dependency mapping, the empty one included, the
    manifest has the fixed line [python = "^3.8"] right after the header
    [[tool.poetry.dependencies]], as the first line of that section, before
    every line made from the mapping. *)
Theorem generate_pyproject_toml_python_line (dependencies : OrderedDict.t) :
  generate_pyproject_toml dependencies
  = ("[tool.poetry]" +:+ Py.nl
     +:+ "name = " +:+ Py.dquote +:+ "your-project-name" +:+ Py.dquote +:+ Py.nl
     +:+ "version = " +:+ Py.dquote +:+ "0.1.0" +:+ Py.dquote +:+ Py.nl
     +:+ "description = " +:+ Py.dquote
     +:+ "A short description of your project." +:+ Py.dquote +:+ Py.nl
     +:+ "authors = [" +:+ Py.dquote +:+ "Your Name <you@example.com>"
     +:+ Py.dquote +:+ "]" +:+ Py.nl
     +:+ Py.nl)
    +:+ ("[tool.poetry.dependencies]" +:+ Py.nl)
    +:+ ("python = " +:+ Py.dquote +:+ "^3.8" +:+ Py.dquote +:+ Py.nl)
    +:+ (String.concat "" (dependency_lines dependencies)
         +:+ build_system_block)
  ∧ (∃ more,
       section_lines "tool.poetry.dependencies"
         (generate_pyproject_toml dependencies)
       = ("python = " +:+ Py.dquote +:+ "^3.8" +:+ Py.dquote) :: more)
  ∧ section_lines "tool.poetry.dependencies"
      (generate_pyproject_toml OrderedDict.empty)
    = ["python = " +:+ Py.dquote +:+ "^3.8" +:+ Py.dquote].
Proof.
  split_and!.
  - rewrite generate_pyproject_toml_eq. reflexivity.
  - rewrite generate_pyproject_toml_eq.
    exists (until_blank
              (lines_from ""
                 (String.concat "" (dependency_lines dependencies)
                  +:+ build_system_block))).
    reflexivity.
  - reflexivity.
Qed.

(** C6. The extras between brackets belong to the package:
    [foo[extra1,extra2]>=1.0,<2.0] gives the package [foo[extra1,extra2]]
    and the constraint [>=1.0,<2.0]. *)
Theorem parse_requirement_line_extras (st : state) :
  parse_requirement_line "foo[extra1,extra2]>=1.0,<2.0" st
  = Ok ("foo[extra1,extra2]", Some ">=1.0,<2.0") st.
Proof. reflexivity. Qed.

(** C5. [foo==1.2.3] gives ([foo], [==1.2.3]); [foo] gives [foo] with no
    constraint, and a dependency with no constraint is written
    [foo = "*"]. *)
Theorem parse_requirement_line_foo (st : state) :
  parse_requirement_line "foo==1.2.3" st = Ok ("foo", Some "==1.2.3") st
  ∧ parse_requirement_line "foo" st = Ok ("foo", None) st
  ∧ dependency_lines [("foo", None)]
    = ["foo = " +:+ Py.dquote +:+ "*" +:+ Py.dquote +:+ Py.nl]
  ∧ generate_pyproject_toml [("foo", None)]
    = toml_head +:+ ("foo = " +:+ Py.dquote +:+ "*" +:+ Py.dquote +:+ Py.nl)
      +:+ build_system_block.
Proof. repeat split; reflexivity. Qed.

(** ** The matcher on the pattern of [parse_requirement_line] *)

Lemma span_app (cls : ascii -> bool) (s : string) :
  (span cls s).1 +:+ (span cls s).2 = s.
Proof.
  induction s as [|c s IH]; [done|]. simpl.
  destruct (cls c); simpl; [|done]. by rewrite str_app_cons, IH.
Qed.

Lemma substring_prefix (u t : string) :
  substring 0 (String.length (u +:+ t) - String.length t) (u +:+ t) = u.
Proof.
  rewrite str_length_app.
  replace (String.length u + String.length t - String.length t)
    with (String.length u) by lia.
  induction u as [|c u IH]; simpl.
  - rewrite str_app_nil_l. by destruct t.
  - by rewrite IH.
Qed.

Lemma lstrip_span (s : string) : Py.lstrip s = (span Py.isspace s).2.
Proof.
  induction s as [|c s IH]; [done|]. simpl. by destruct (Py.isspace c).
Qed.

Section Matcher.

Variable subject : string.

(** [Star] over a set of characters is the search [backtrack]. *)
Lemma exec_star_in (cls : ascii -> bool) (s : string) (g : Re.groups)
    (k : Re.cont) :
  Re.exec subject (Re.Star (Re.In_ cls)) s g k = backtrack cls s g k.
Proof.
  cbn [Re.exec].
  match goal with
  | |- ?f (String.length s) s g = _ =>
      cut (∀ n s g, String.length s ≤ n → f n s g = backtrack cls s g k)
  end.
  { intros Hcut. by apply Hcut. }
  intros n. induction n as [|n IH]; intros s0 g0 Hlen.
  - destruct s0; simpl in *; [done | lia].
  - destruct s0 as [|c s0]; [done|]. simpl in Hlen.
    cbn [backtrack]. destruct (cls c) eqn:Hc; [|done].
    replace (String.length s0 <? String.length (String c s0)) with true
      by (symmetry; apply Nat.ltb_lt; simpl; lia).
    rewrite IH by lia. done.
Qed.

(** When the rest of the pattern refuses the end of the run, and then
    refuses every shorter run as well, the search comes down to one try,
    after the longest run. *)
Lemma backtrack_greedy (cls : ascii -> bool) (g : Re.groups) (k : Re.cont) :
  (∀ c t, cls c = true → k (span cls t).2 g = None → k (String c t) g = None) →
  ∀ s, backtrack cls s g k = k (span cls s).2 g.
Proof.
  intros Hk s. induction s as [|c s IH]; [done|]. simpl.
  destruct (cls c) eqn:Hc; simpl; [|done].
  rewrite IH. destruct (k (span cls s).2 g) eqn:Hend; [done|].
  by apply Hk.
Qed.

End Matcher.

(** *** Characters *)

Lemma ident_char_not_open (c : ascii) :
  ident_char c = true → bool_decide (c = "["%char) = false.
Proof.
  intros Hc. apply bool_decide_eq_false. intros ->. by vm_compute in Hc.
Qed.

Lemma extras_char_not_close (c : ascii) :
  extras_char c = true → bool_decide (c = "]"%char) = false.
Proof.
  intros Hc. apply bool_decide_eq_false. intros ->. by vm_compute in Hc.
Qed.

Lemma ident_char_not_space (c : ascii) :
  ident_char c = true → Py.isspace c = false.
Proof.
  destruct c as [[] [] [] [] [] [] [] []]; vm_compute; congruence.
Qed.

Lemma space_is_dot_or_lf (c : ascii) :
  Re.dot c = false → c = Py.LF.
Proof.
  unfold Re.dot. intros Hc. apply negb_false_iff in Hc.
  by apply bool_decide_eq_true in Hc.
Qed.

(** *** The end of the pattern *)

Lemma version_tail_cons (c : ascii) (t : string) :
  version_tail t = None → version_tail (String c t) = None.
Proof.
  unfold version_tail. simpl.
  destruct (Re.dot c) eqn:Hc; simpl.
  { by destruct (_ || _). }
  destruct t as [|d t]; [done|]. intros _.
  rewrite bool_decide_eq_false_2; [done|].
  unfold Py.nl. congruence.
Qed.

Lemma version_tail_app (u t : string) :
  version_tail t = None → version_tail (u +:+ t) = None.
Proof.
  intros Ht. induction u as [|c u IH]; [done|].
  rewrite str_app_cons. by apply version_tail_cons.
Qed.

Lemma version_tail_lstrip (t : string) :
  version_tail (Py.lstrip t) = None → version_tail t = None.
Proof.
  intros Ht. rewrite <- (span_app Py.isspace t), <- lstrip_span.
  by apply version_tail_app.
Qed.

Lemma version_tail_span (cls : ascii -> bool) (t : string) :
  version_tail (span cls t).2 = None → version_tail t = None.
Proof.
  intros Ht. rewrite <- (span_app cls t). by apply version_tail_app.
Qed.

Lemma take_extras_app (s extras rest : string) :
  take_extras s = Some (extras, rest) → s = extras +:+ rest.
Proof.
  destruct s as [|c s]; [done|]. unfold take_extras.
  case_bool_decide as Hc; [subst c | done].
  pose proof (span_app extras_char s) as Happ.
  destruct (span extras_char s) as [names r]. simpl in Happ.
  destruct r as [|d r]; [done|].
  destruct (negb (Py.is_empty names)); [|done].
  case_bool_decide as Hd; [subst d | done]. simpl.
  intros [= <- <-]. rewrite <- Happ.
  by rewrite !str_app_cons, str_app_nil_l, !str_app_assoc.
Qed.

(** *** The matcher, piece by piece *)

Section Pattern.

Variable subject : string.

Abbreviation exec := (Re.exec subject).
Abbreviation accept := (fun (_ : string) (g : Re.groups) => Some g).

Lemma exec_in cls s g k :
  exec (Re.In_ cls) s g k
  = match s with
    | String c s' => if cls c then k s' g else None
    | "" => None
    end.
Proof. reflexivity. Qed.

Lemma exec_eol s g k :
  exec Re.Eol s g k
  = if Py.is_empty s || bool_decide (s = Py.nl) then k s g else None.
Proof. reflexivity. Qed.

Lemma exec_opt r s g k :
  exec (Re.Opt r) s g k
  = match exec r s g k with
    | Some g' => Some g'
    | None => k s g
    end.
Proof. reflexivity. Qed.

Lemma exec_cat r1 r2 s g k :
  exec (Re.Cat r1 r2) s g k = exec r1 s g (fun s' g' => exec r2 s' g' k).
Proof. reflexivity. Qed.

Lemma exec_group i r s g k :
  exec (Re.Group i r) s g k
  = exec r s g (fun s' g' =>
      k s' (Re.set_group i
              (substring 0 (String.length s - String.length s') s) g')).
Proof. reflexivity. Qed.

Lemma exec_plus_in cls s g k :
  exec (Re.Plus (Re.In_ cls)) s g k
  = match s with
    | String c s' => if cls c then backtrack cls s' g k else None
    | "" => None
    end.
Proof.
  unfold Re.Plus. rewrite exec_cat, exec_in.
  destruct s as [|c s']; [done|]. destruct (cls c); [|done].
  apply (exec_star_in subject).
Qed.

(** Group 2 and [$]: the text up to the end or to a final line feed. *)
Lemma exec_end_re s g :
  exec end_re s g accept = (λ v, Re.set_group 2 v g) <$> version_tail s.
Proof.
  unfold end_re. rewrite exec_cat, exec_group, exec_star_in.
  rewrite backtrack_greedy.
  - rewrite exec_eol. unfold version_tail.
    destruct (_ || _); [|done]. simpl. do 2 f_equal.
    rewrite <- (span_app Re.dot s) at 1 3. apply substring_prefix.
  - intros c t Hc _. rewrite exec_eol. simpl.
    rewrite bool_decide_eq_false_2; [done|].
    unfold Py.nl. intros [= -> _]. by vm_compute in Hc.
Qed.

Lemma exec_end_re_None s g :
  exec end_re s g accept = None ↔ version_tail s = None.
Proof. rewrite exec_end_re. by destruct (version_tail s). Qed.

(** [\s*], group 2 and [$]. *)
Lemma exec_tail s g :
  exec (Re.Cat (Re.Star (Re.In_ Py.isspace)) end_re) s g accept
  = (λ v, Re.set_group 2 v g) <$> version_text s.
Proof.
  rewrite exec_cat, exec_star_in, backtrack_greedy.
  - rewrite exec_end_re. unfold version_text. by rewrite lstrip_span.
  - intros c t _. rewrite !exec_end_re_None. intros Ht.
    by apply version_tail_cons, version_tail_span with Py.isspace.
Qed.

Lemma exec_tail_None s g :
  exec (Re.Cat (Re.Star (Re.In_ Py.isspace)) end_re) s g accept = None
  ↔ version_text s = None.
Proof. rewrite exec_tail. by destruct (version_text s). Qed.

(** The extras: an opening bracket, the longest run of names, a closing
    bracket. *)
Lemma exec_extras_re s g k :
  exec extras_re s g k
  = match take_extras s with
    | Some (_, rest) => k rest g
    | None => None
    end.
Proof.
  unfold extras_re, Re.lit. rewrite exec_cat, exec_in.
  destruct s as [|c s]; [done|]. unfold take_extras.
  destruct (bool_decide (c = "["%char)); [|done].
  rewrite exec_cat, exec_plus_in.
  destruct s as [|d s]; [done|]. simpl span.
  destruct (extras_char d) eqn:Hd; simpl; [|done].
  rewrite backtrack_greedy.
  - destruct (span extras_char s).2 as [|e r]; [done|].
    by destruct (bool_decide (e = "]"%char)).
  - intros e t He _. by rewrite extras_char_not_close.
Qed.

End Pattern.

Lemma exec_bol subject s g k :
  Re.exec subject Re.Bol s g k
  = if String.length s =? String.length subject then k s g else None.
Proof. reflexivity. Qed.

Lemma take_extras_ident (c : ascii) (t : string) :
  ident_char c = true → take_extras (String c t) = None.
Proof. intros Hc. unfold take_extras. by rewrite ident_char_not_open. Qed.

Lemma lstrip_open (s extras rest : string) :
  take_extras s = Some (extras, rest) → Py.lstrip s = s.
Proof.
  destruct s as [|c s]; [done|]. unfold take_extras.
  case_bool_decide as Hc; [by subst c | done].
Qed.

(** The groups of a match are those of [split_requirement]: backtracking
    never finds a match that the greedy reading of the line misses, nor
    another one. *)
Lemma re_match_requirement (line : string) :
  Re.re_match requirement_re line
  = (λ pv, [(2, pv.2); (1, pv.1)]) <$> split_requirement line.
Proof.
  unfold Re.re_match, requirement_re.
  rewrite exec_cat, exec_bol, Nat.eqb_refl, exec_cat, exec_group.
  unfold package_re. rewrite exec_cat, exec_plus_in.
  unfold split_requirement.
  destruct line as [|c s1]; [done|]. simpl span.
  destruct (ident_char c) eqn:Hc; [|done].
  cbn [Py.is_empty].
  rewrite backtrack_greedy.
  - rewrite exec_opt, exec_extras_re.
    pose proof (span_app ident_char s1) as Hline.
    destruct (span ident_char s1) as [name rest]. cbn [fst snd] in Hline |- *.
    destruct (take_extras rest) as [[extras rest']|] eqn:Hex.
    + rewrite exec_tail.
      destruct (version_text rest') as [v|] eqn:Hv.
      * assert (substring 0 (String.length (String c s1) - String.length rest')
                  (String c s1) = String c name +:+ extras) as ->; [|done].
        apply take_extras_app in Hex. subst rest. subst s1.
        rewrite <- str_app_cons, <- str_app_assoc. apply substring_prefix.
      * cbn [fmap option_fmap option_map]. apply exec_tail_None.
        unfold version_text.
        rewrite (lstrip_open _ _ _ Hex).
        apply take_extras_app in Hex. subst rest.
        by apply version_tail_app, version_tail_lstrip.
    + rewrite exec_tail.
      destruct (version_text rest) as [v|]; [|done].
      assert (substring 0 (String.length (String c s1) - String.length rest)
                (String c s1) = String c name) as ->; [|done].
      subst s1. rewrite <- str_app_cons. apply substring_prefix.
  - intros c' t Hc'. rewrite !exec_opt, !exec_extras_re.
    rewrite (take_extras_ident _ _ Hc').
    intros Hend. apply exec_tail_None.
    assert (version_text (span ident_char t).2 = None) as Ht.
    { destruct (take_extras (span ident_char t).2) as [[? ?]|];
        [destruct (Re.exec _ _ _ _ _) in Hend; [done|] |];
        by apply exec_tail_None in Hend. }
    unfold version_text. simpl. rewrite (ident_char_not_space _ Hc').
    by apply version_tail_cons, version_tail_span with ident_char,
      version_tail_lstrip.
Qed.

(** Group 1 takes part in every match. *)
Lemma requirement_re_group1 (line : string) (m : Re.groups) :
  Re.re_match requirement_re line = Some m → is_Some (Re.group m 1).
Proof.
  rewrite re_match_requirement.
  destruct (split_requirement line) as [[p v]|]; [|done].
  intros [= <-]. by exists p.
Qed.

Lemma match_requirement_split (line : string) :
  match_requirement line
  = (λ pv, (pv.1, if Py.is_empty pv.2 then None else Some (Py.strip pv.2)))
    <$> split_requirement line.
Proof.
  unfold match_requirement. rewrite re_match_requirement.
  destruct (split_requirement line) as [[p v]|]; [|done].
  simpl. by destruct v.
Qed.

Lemma match_requirement_None (line : string) :
  match_requirement line = None ↔ Re.re_match requirement_re line = None.
Proof.
  unfold match_requirement.
  by destruct (Re.re_match requirement_re line).
Qed.

(** A line that does not begin with a character of an identifier does not
    match. *)
Lemma split_requirement_no_ident (line : string) :
  (∀ c rest, line = String c rest → ident_char c = false) →
  split_requirement line = None.
Proof.
  intros Hline. unfold split_requirement.
  destruct line as [|c rest]; [done|]. simpl.
  by rewrite (Hline c rest).
Qed.

Lemma no_lf_app (u t : string) : no_lf (u +:+ t) = no_lf u && no_lf t.
Proof.
  induction u as [|c u IH]; [done|].
  rewrite str_app_cons. simpl. rewrite IH. by destruct (Re.dot c).
Qed.

Lemma version_tail_no_lf (t : string) :
  no_lf t = true → version_tail t = Some t.
Proof.
  unfold version_tail. induction t as [|c t IH]; [done|]. simpl.
  intros [Hc Ht]%andb_true_iff. rewrite Hc. simpl.
  specialize (IH Ht). destruct (_ || _); [|done]. congruence.
Qed.

(** On a line without line feed the pattern asks for nothing more than a
    character of an identifier at the start. *)
Lemma split_requirement_single_line (c : ascii) (rest : string) :
  ident_char c = true → no_lf rest = true →
  is_Some (split_requirement (String c rest)).
Proof.
  intros Hc Hrest. unfold split_requirement. simpl. rewrite Hc.
  pose proof (span_app ident_char rest) as Happ.
  destruct (span ident_char rest) as [name r]. simpl in *.
  assert (no_lf r = true) as Hr.
  { rewrite <- Happ, no_lf_app in Hrest. by apply andb_true_iff in Hrest as [_ ?]. }
  assert (∀ t, no_lf t = true → is_Some (version_text t)) as Hver.
  { intros t Ht. unfold version_text. rewrite version_tail_no_lf; [done|].
    rewrite <- (span_app Py.isspace t), no_lf_app, <- lstrip_span in Ht.
    by apply andb_true_iff in Ht as [_ ?]. }
  destruct (take_extras r) as [[extras r']|] eqn:Hex.
  - apply take_extras_app in Hex. subst r.
    rewrite no_lf_app in Hr. apply andb_true_iff in Hr as [_ Hr'].
    by destruct (Hver r' Hr') as [v ->].
  - by destruct (Hver r Hr) as [v ->].
Qed.

(** ** The loop of [main] *)

Lemma logged_nil (st : state) : logged [] st = st.
Proof. destruct st. unfold logged. simpl. by rewrite app_nil_r. Qed.

Lemma logged_app (l1 l2 : list string) (st : state) :
  logged (l1 ++ l2) st = logged l2 (logged l1 st).
Proof. unfold logged. simpl. by rewrite app_assoc. Qed.

Lemma printed_logged (msg : string) (st : state) :
  printed msg st = logged [msg] st.
Proof. reflexivity. Qed.

Lemma parse_requirement_line_eq (line : string) (st : state) :
  parse_requirement_line line st
  = Ok (requirement_of line) (logged (parse_warnings [line]) st).
Proof.
  unfold parse_requirement_line, requirement_of, parse_warnings. simpl.
  destruct (match_requirement line) as [[package version]|]; simpl.
  - by rewrite logged_nil.
  - reflexivity.
Qed.

Lemma for_each_set_all (reqs : list string) (d : OrderedDict.t) (st : state) :
  for_each reqs d (fun dependencies req =>
    let* (pkg, ver) := parse_requirement_line req in
    ret (OrderedDict.setitem dependencies pkg ver)) st
  = Ok (set_all d (requirement_of <$> reqs)) (logged (parse_warnings reqs) st).
Proof.
  revert d st. induction reqs as [|req reqs IH]; intros d st.
  - simpl. by rewrite logged_nil.
  - cbn [for_each]. unfold bind at 1 2. rewrite parse_requirement_line_eq.
    destruct (requirement_of req) as [pkg ver] eqn:Hreq.
    unfold ret at 1. rewrite IH.
    change (req :: reqs) with ([req] ++ reqs).
    unfold parse_warnings. rewrite omap_app, logged_app.
    rewrite fmap_app. unfold set_all. rewrite fold_left_app. simpl.
    by rewrite Hreq.
Qed.

Lemma collect_dependencies_eq (reqs : list string) (st : state) :
  collect_dependencies reqs st
  = Ok (set_all OrderedDict.empty (requirement_of <$> reqs))
       (logged (parse_warnings reqs) st).
Proof. apply for_each_set_all. Qed.

(** C7. A line that the pattern does not match comes back whole as the
    package, with no constraint, after one diagnostic; this is the case of
    every line that does not begin with a letter, a digit, an underscore, a
    hyphen or a dot. The parser returns for every line, and so does the loop
    of [main] that calls it on every requirement. *)
Theorem parse_requirement_line_no_match (line : string) (st : state) :
  (Re.re_match requirement_re line = None →
   parse_requirement_line line st
   = Ok (line, None)
       (printed ("Warning: Could not parse requirement line: " +:+ line) st))
  ∧ ((∀ c rest, line = String c rest → ident_char c = false) →
     Re.re_match requirement_re line = None)
  ∧ (∃ pv st', parse_requirement_line line st = Ok pv st')
  ∧ (∀ reqs, ∃ d st', collect_dependencies reqs st = Ok d st').
Proof.
  repeat split.
  - intros Hno. apply match_requirement_None in Hno.
    unfold parse_requirement_line. by rewrite Hno.
  - intros Hline. rewrite re_match_requirement.
    by rewrite split_requirement_no_ident.
  - rewrite parse_requirement_line_eq. eauto.
  - intros reqs. rewrite collect_dependencies_eq. eauto.
Qed.

Lemma parse_requirement_line_no_match_witness :
  Re.re_match requirement_re "==1.0" = None
  ∧ parse_requirement_line "==1.0" initial_state
    = Ok ("==1.0", None)
        (printed "Warning: Could not parse requirement line: ==1.0"
           initial_state).
Proof.
  split; [reflexivity|].
  apply (proj1 (parse_requirement_line_no_match "==1.0" initial_state)).
  reflexivity.
Defined.

(** ** The ordered dictionary *)

Lemma keys_setitem (d : OrderedDict.t) (k : string) (v : option string) :
  OrderedDict.keys (OrderedDict.setitem d k v)
  = if bool_decide (k ∈ OrderedDict.keys d) then OrderedDict.keys d
    else OrderedDict.keys d ++ [k].
Proof.
  unfold OrderedDict.keys.
  induction d as [|[k' v'] d IH]; [done|].
  cbn [OrderedDict.setitem]. destruct (decide (k' = k)) as [->|Hne].
  - rewrite (bool_decide_eq_true_2 (k = k)) by done.
    rewrite !fmap_cons. simpl fst.
    rewrite bool_decide_eq_true_2; [done | by left].
  - rewrite (bool_decide_eq_false_2 (k' = k)) by done.
    rewrite !fmap_cons, IH. simpl fst.
    destruct (decide (k ∈ d.*1)) as [Hin|Hin].
    + rewrite !bool_decide_eq_true_2; [done | by right | done].
    + rewrite !bool_decide_eq_false_2; [done | | done].
      intros [Heq | Hin']%elem_of_cons; congruence.
Qed.

Lemma get_setitem (d : OrderedDict.t) (k k' : string) (v : option string) :
  OrderedDict.get (OrderedDict.setitem d k v) k'
  = if bool_decide (k = k') then Some v else OrderedDict.get d k'.
Proof.
  induction d as [|[k0 v0] d IH]; [done|].
  cbn [OrderedDict.setitem]. destruct (decide (k0 = k)) as [->|Hne].
  - rewrite (bool_decide_eq_true_2 (k = k)) by done. cbn [OrderedDict.get].
    by destruct (bool_decide (k = k')).
  - rewrite (bool_decide_eq_false_2 (k0 = k)) by done. cbn [OrderedDict.get].
    rewrite IH. destruct (decide (k0 = k')) as [->|Hne'].
    + rewrite (bool_decide_eq_true_2 (k' = k')) by done.
      by rewrite bool_decide_eq_false_2 by congruence.
    + by rewrite (bool_decide_eq_false_2 (k0 = k')) by done.
Qed.

Lemma NoDup_keys_setitem (d : OrderedDict.t) (k : string) (v : option string) :
  NoDup (OrderedDict.keys d) → NoDup (OrderedDict.keys (OrderedDict.setitem d k v)).
Proof.
  intros Hd. rewrite keys_setitem. case_bool_decide as Hin; [done|].
  apply NoDup_app. split_and!; [done | | apply NoDup_singleton].
  intros x Hx ->%list_elem_of_singleton. done.
Qed.

Lemma NoDup_keys_set_all (l : list (string * option string)) (d : OrderedDict.t) :
  NoDup (OrderedDict.keys d) → NoDup (OrderedDict.keys (set_all d l)).
Proof.
  revert d. induction l as [|[k v] l IH]; intros d Hd; [done|].
  apply IH. by apply NoDup_keys_setitem.
Qed.

Lemma get_set_all (l : list (string * option string)) (d : OrderedDict.t)
    (k : string) :
  OrderedDict.get (set_all d l) k
  = match last_write l k with
    | Some v => Some v
    | None => OrderedDict.get d k
    end.
Proof.
  revert d. induction l as [|[k0 v0] l IH]; intros d; [done|].
  change (set_all d ((k0, v0) :: l))
    with (set_all (OrderedDict.setitem d k0 v0) l).
  rewrite IH, get_setitem. simpl.
  destruct (last_write l k); [done|]. by case_bool_decide.
Qed.

Lemma keys_set_all (l : list (string * option string)) (d : OrderedDict.t) :
  OrderedDict.keys (set_all d l)
  = OrderedDict.keys d
    ++ filter (λ k, k ∉ OrderedDict.keys d) (first_occurrences l.*1).
Proof.
  revert d. induction l as [|[k0 v0] l IH]; intros d.
  - simpl. by rewrite app_nil_r.
  - change (set_all d ((k0, v0) :: l))
      with (set_all (OrderedDict.setitem d k0 v0) l).
    rewrite IH, keys_setitem. simpl first_occurrences.
    rewrite filter_cons, list_filter_filter.
    case_bool_decide as Hin.
    + rewrite decide_False by tauto. f_equal.
      apply list_filter_iff. intros x.
      split; [intros Hx; split; [done | by intros ->] | by intros [? ?]].
    + rewrite decide_True by done. rewrite <- app_assoc. simpl. do 2 f_equal.
      apply list_filter_iff. intros x.
      rewrite elem_of_app, list_elem_of_singleton. tauto.
Qed.

Lemma keys_set_all_empty (l : list (string * option string)) :
  OrderedDict.keys (set_all OrderedDict.empty l) = first_occurrences l.*1.
Proof.
  rewrite keys_set_all. simpl.
  induction (first_occurrences l.*1) as [|k ks IH]; [done|].
  rewrite filter_cons, decide_True by apply not_elem_of_nil. by f_equal.
Qed.

(** ** The include resolver *)

Lemma extends_refl (st : state) : extends st st.
Proof.
  split; [done|]. exists []. rewrite app_nil_r.
  split_and!; [done | constructor | by intros p ?%elem_of_nil].
Qed.

Lemma extends_trans (st1 st2 st3 : state) :
  extends st1 st2 → extends st2 st3 → extends st1 st3.
Proof.
  intros [Hsub1 (new1 & Ho1 & Hnd1 & Hnew1)] [Hsub2 (new2 & Ho2 & Hnd2 & Hnew2)].
  split; [set_solver|]. exists (new1 ++ new2). split_and!.
  - by rewrite Ho2, Ho1, app_assoc.
  - apply NoDup_app. split_and!; [done | | done].
    intros p Hp1 Hp2. destruct (Hnew1 p Hp1), (Hnew2 p Hp2). done.
  - intros p [Hp | Hp]%elem_of_app.
    + destruct (Hnew1 p Hp). set_solver.
    + destruct (Hnew2 p Hp). set_solver.
Qed.

Lemma extends_printed (msg : string) (st : state) : extends st (printed msg st).
Proof.
  split; [done|]. exists []. simpl. rewrite app_nil_r.
  split_and!; [done | constructor | by intros p ?%elem_of_nil].
Qed.

Lemma extends_entered (path : string) (st : state) :
  path ∉ parsed_files st → extends st (entered path st).
Proof.
  intros Hnew. split; [simpl; set_solver|]. exists [path]. simpl.
  split_and!; [done | apply NoDup_singleton |].
  intros p ->%list_elem_of_singleton. set_solver.
Qed.

Lemma unvisited_extends (fs : gmap string node) (st st' : state) :
  extends st st' → unvisited fs st' ≤ unvisited fs st.
Proof.
  intros [Hsub _]. unfold unvisited. apply subseteq_size. set_solver.
Qed.

Lemma unvisited_entered (fs : gmap string node) (path : string) (st : state) :
  is_Some (fs !! path) → path ∉ parsed_files st →
  unvisited fs (entered path st) < unvisited fs st.
Proof.
  intros Hex Hnew. unfold unvisited. apply subset_size. simpl.
  apply elem_of_dom in Hex. set_solver.
Qed.

Lemma unvisited_fresh (fs : gmap string node) (st : state) :
  unvisited fs (fresh st) = size fs.
Proof.
  unfold unvisited. simpl. rewrite difference_empty_L. apply size_dom.
Qed.

Lemma resolved_trans (fs : gmap string node) {A} (st st' : state)
    (r : result A) :
  extends st st' → resolved fs st' r → resolved fs st r.
Proof.
  intros Hext. destruct r as [a st''|[p] st''|]; simpl; [| |done].
  - by apply extends_trans.
  - intros [? ?]. split; [by eapply extends_trans | done].
Qed.

Lemma resolved_bind (fs : gmap string node) {A B} (m : M A) (f : A → M B)
    (st : state) :
  resolved fs st (m st) →
  (∀ a st', m st = Ok a st' → extends st st' → resolved fs st' (f a st')) →
  resolved fs st (bind m f st).
Proof.
  intros Hm Hf. unfold bind. destruct (m st) as [a st'|[p] st'|]; simpl in *.
  - eapply resolved_trans; [done | by apply Hf].
  - done.
  - done.
Qed.

Section Resolver.

Context `{OsPath}.
Variable fs : gmap string node.

(** One call of [parse_requirements], by cases on its path. *)
Lemma parse_requirements_fuel_unfold (fuel : nat) (path : string) (st : state) :
  parse_requirements_fuel fs (S fuel) path st
  = if bool_decide (abspath path ∈ parsed_files st)
    then Ok [] (printed (already_parsed_msg (abspath path)) st)
    else
      match fs !! abspath path with
      | None => Ok [] (printed (missing_msg (abspath path)) st)
      | Some Unreadable =>
          Raised (OSError (abspath path)) (entered (abspath path) st)
      | Some (Regular lines) =>
          for_each lines []
            (process_line (parse_requirements_fuel fs fuel) (abspath path))
            (entered (abspath path) st)
      end.
Proof.
  cbn [parse_requirements_fuel]. unfold bind at 1, get_parsed_files at 1.
  destruct (bool_decide (abspath path ∈ parsed_files st)); [done|].
  unfold path_exists.
  destruct (fs !! abspath path) as [[lines|]|] eqn:Hfs.
  - rewrite bool_decide_eq_true_2 by eauto. simpl.
    unfold bind, add_parsed_file, open_read. simpl. by rewrite Hfs.
  - rewrite bool_decide_eq_true_2 by eauto. simpl.
    unfold bind, add_parsed_file, open_read. simpl. by rewrite Hfs.
  - rewrite bool_decide_eq_false_2 by (by intros [? ?]). done.
Qed.


Lemma process_line_raw recurse absolute_path requirements raw st :
  is_blank_or_comment (Py.strip raw) = false →
  is_include (Py.strip raw) = false →
  process_line recurse absolute_path requirements raw st
  = Ok (requirements ++ [Py.strip raw]) st.
Proof.
  intros Hskip Hinc. unfold process_line.
  unfold is_blank_or_comment in Hskip. by rewrite Hskip, Hinc.
Qed.

Lemma process_line_include recurse absolute_path requirements raw st
    directive nested_req :
  is_blank_or_comment (Py.strip raw) = false →
  is_include (Py.strip raw) = true →
  Py.split (Py.strip raw) = [directive; nested_req] →
  process_line recurse absolute_path requirements raw st
  = match recurse (join (dirname absolute_path) nested_req) st with
    | Ok nested st' => Ok (requirements ++ nested) st'
    | Raised e st' => Raised e st'
    | OutOfFuel => OutOfFuel
    end.
Proof.
  intros Hskip Hinc Hsplit. unfold process_line.
  unfold is_blank_or_comment in Hskip. by rewrite Hskip, Hinc, Hsplit.
Qed.

Lemma process_line_malformed recurse absolute_path requirements raw st :
  is_blank_or_comment (Py.strip raw) = false →
  is_include (Py.strip raw) = true →
  length (Py.split (Py.strip raw)) ≠ 2 →
  process_line recurse absolute_path requirements raw st
  = Ok requirements (printed (unrecognized_msg (Py.strip raw)) st).
Proof.
  intros Hskip Hinc Hsplit. unfold process_line.
  unfold is_blank_or_comment in Hskip. rewrite Hskip, Hinc.
  by destruct (Py.split (Py.strip raw)) as [|? [|? [|? ?]]].
Qed.

(** *** Termination

    The loop over the lines of a file, then the call itself: with more fuel
    than there are unvisited files, the call comes back. *)

Lemma process_line_resolved (fuel : nat) absolute_path requirements raw st :
  (∀ path st', unvisited fs st' < fuel →
     resolved fs st' (parse_requirements_fuel fs fuel path st')) →
  unvisited fs st < fuel →
  resolved fs st
    (process_line (parse_requirements_fuel fs fuel) absolute_path
       requirements raw st).
Proof.
  intros IH Hfuel. unfold process_line.
  destruct (_ || _); [apply extends_refl|].
  destruct (is_include _).
  - destruct (Py.split _) as [|directive [|nested_req [|? ?]]];
      try apply extends_printed.
    apply resolved_bind; [by apply IH|].
    intros nested st' _ _. apply extends_refl.
  - apply extends_refl.
Qed.

Lemma for_each_resolved (fuel : nat) absolute_path lines requirements st :
  (∀ path st', unvisited fs st' < fuel →
     resolved fs st' (parse_requirements_fuel fs fuel path st')) →
  unvisited fs st < fuel →
  resolved fs st
    (for_each lines requirements
       (process_line (parse_requirements_fuel fs fuel) absolute_path) st).
Proof.
  intros IH. revert requirements st.
  induction lines as [|raw lines IHlines]; intros requirements st Hfuel.
  - apply extends_refl.
  - cbn [for_each]. apply resolved_bind.
    + by apply process_line_resolved.
    + intros requirements' st' _ Hext. apply IHlines.
      pose proof (unvisited_extends fs _ _ Hext). lia.
Qed.

Lemma parse_requirements_fuel_resolved (fuel : nat) (path : string) (st : state) :
  unvisited fs st < fuel →
  resolved fs st (parse_requirements_fuel fs fuel path st).
Proof.
  revert path st. induction fuel as [|fuel IH]; intros path st Hfuel; [lia|].
  rewrite parse_requirements_fuel_unfold.
  case_bool_decide as Hseen; [apply extends_printed|].
  destruct (fs !! abspath path) as [[lines|]|] eqn:Hfs.
  - eapply resolved_trans; [by apply extends_entered|].
    apply for_each_resolved; [done|].
    pose proof (unvisited_entered fs (abspath path) st) as Hlt.
    rewrite Hfs in Hlt. specialize (Hlt (mk_is_Some _ _ eq_refl) Hseen). lia.
  - simpl. split; [by apply extends_entered | done].
  - apply extends_printed.
Qed.

(** More fuel than needed changes nothing. *)
Lemma for_each_fuel_more (fuel fuel' : nat) absolute_path lines requirements st :
  (∀ path st', unvisited fs st' < fuel →
     parse_requirements_fuel fs fuel' path st'
     = parse_requirements_fuel fs fuel path st') →
  unvisited fs st < fuel →
  for_each lines requirements
    (process_line (parse_requirements_fuel fs fuel') absolute_path) st
  = for_each lines requirements
      (process_line (parse_requirements_fuel fs fuel) absolute_path) st.
Proof.
  intros IH. revert requirements st.
  induction lines as [|raw lines IHlines]; intros requirements st Hfuel; [done|].
  cbn [for_each]. unfold bind.
  assert (process_line (parse_requirements_fuel fs fuel') absolute_path
            requirements raw st
          = process_line (parse_requirements_fuel fs fuel) absolute_path
              requirements raw st) as ->.
  { unfold process_line. destruct (_ || _); [done|].
    destruct (is_include _); [|done].
    destruct (Py.split _) as [|directive [|nested_req [|? ?]]]; try done.
    unfold bind. by rewrite IH. }
  pose proof (process_line_resolved fuel absolute_path requirements raw st
                (λ path st', parse_requirements_fuel_resolved fuel path st')
                Hfuel) as Hres.
  destruct (process_line _ _ _ _ _) as [requirements' st'| |]; [|done|done].
  apply IHlines. pose proof (unvisited_extends fs _ _ Hres). lia.
Qed.

Lemma parse_requirements_fuel_more (fuel fuel' : nat) (path : string)
    (st : state) :
  unvisited fs st < fuel → fuel ≤ fuel' →
  parse_requirements_fuel fs fuel' path st
  = parse_requirements_fuel fs fuel path st.
Proof.
  revert fuel' path st.
  induction fuel as [|fuel IH]; intros fuel' path st Hfuel Hle; [lia|].
  destruct fuel' as [|fuel']; [lia|].
  rewrite !parse_requirements_fuel_unfold.
  case_bool_decide as Hseen; [done|].
  destruct (fs !! abspath path) as [[lines|]|] eqn:Hfs; [|done|done].
  pose proof (unvisited_entered fs (abspath path) st) as Hlt.
  rewrite Hfs in Hlt. specialize (Hlt (mk_is_Some _ _ eq_refl) Hseen).
  apply for_each_fuel_more; [|lia].
  intros path' st' Hst'. apply IH; lia.
Qed.

Lemma parse_requirements_eq (path : string) (st : state) :
  parse_requirements fs path st
  = parse_requirements_fuel fs (S (size fs)) path (fresh st).
Proof. reflexivity. Qed.

Lemma parse_requirements_resolved (path : string) (st : state) :
  resolved fs (fresh st) (parse_requirements fs path st).
Proof.
  rewrite parse_requirements_eq. apply parse_requirements_fuel_resolved.
  rewrite unvisited_fresh. lia.
Qed.

(** C3. [parse_requirements] comes back for every file system and every
    path, circular includes included: it opens each path at most once, it
    returns a list when every existing path is readable, its result does
    not depend on the fuel of the model, and a path that is already in
    [parsed_files] gives the empty list after one diagnostic. *)
Theorem parse_requirements_terminates (file_path : string) (st : state) :
  (∃ new : list string,
     NoDup new ∧
     match parse_requirements fs file_path st with
     | Ok _ st' => opened st' = opened st ++ new
     | Raised _ st' => opened st' = opened st ++ new
     | OutOfFuel => False
     end)
  ∧ (all_readable fs →
     ∃ reqs st', parse_requirements fs file_path st = Ok reqs st')
  ∧ (∀ fuel, size fs < fuel →
       parse_requirements_fuel fs fuel file_path (fresh st)
       = parse_requirements fs file_path st)
  ∧ (∀ fuel path st1,
       abspath path ∈ parsed_files st1 →
       parse_requirements_fuel fs (S fuel) path st1
       = Ok [] (printed ("Already parsed " +:+ abspath path
                         +:+ ", skipping to avoid circular includes.") st1)).
Proof.
  pose proof (parse_requirements_resolved file_path st) as Hres.
  split_and!.
  - destruct (parse_requirements fs file_path st) as [reqs st'|[p] st'|];
      simpl in Hres; [| |done].
    + destruct Hres as [_ (new & Hopened & Hnd & _)]. by exists new.
    + destruct Hres as [[_ (new & Hopened & Hnd & _)] _]. by exists new.
  - intros Hread.
    destruct (parse_requirements fs file_path st) as [reqs st'|[p] st'|];
      simpl in Hres; [by eauto| |done].
    destruct Hres as [_ Hp]. by destruct (Hread p).
  - intros fuel Hfuel. rewrite parse_requirements_eq.
    apply parse_requirements_fuel_more; [rewrite unvisited_fresh|]; lia.
  - intros fuel path st1 Hseen. rewrite parse_requirements_fuel_unfold.
    by rewrite bool_decide_eq_true_2.
Qed.

(** *** What was printed has no effect on what follows *)

Lemma quiet_bind {A B} (m : M A) (f : A → M B) (st1 st2 : state) :
  quiet (m st1) = quiet (m st2) →
  (∀ a st1' st2', silent st1' = silent st2' →
     quiet (f a st1') = quiet (f a st2')) →
  quiet (bind m f st1) = quiet (bind m f st2).
Proof.
  intros Hm Hf. unfold bind.
  destruct (m st1) as [a1 st1'|e1 st1'|], (m st2) as [a2 st2'|e2 st2'|];
    try discriminate Hm.
  - assert (a1 = a2 ∧ silent st1' = silent st2') as [-> Hst]
      by (simpl in Hm; split; congruence).
    by apply Hf.
  - simpl in Hm |- *. congruence.
  - reflexivity.
Qed.

Lemma process_line_quiet recurse absolute_path requirements raw st1 st2 :
  (∀ path st1' st2', silent st1' = silent st2' →
     quiet (recurse path st1') = quiet (recurse path st2')) →
  silent st1 = silent st2 →
  quiet (process_line recurse absolute_path requirements raw st1)
  = quiet (process_line recurse absolute_path requirements raw st2).
Proof.
  intros IH Hst. unfold process_line.
  destruct (_ || _); [simpl; by f_equal|].
  destruct (is_include _); [|simpl; by f_equal].
  destruct (Py.split _) as [|directive [|nested_req [|? ?]]];
    try (simpl; f_equal; unfold silent in *; simpl; congruence).
  apply quiet_bind; [by apply IH|].
  intros nested st1' st2' Hst'. simpl. by f_equal.
Qed.

Lemma for_each_quiet recurse absolute_path lines requirements st1 st2 :
  (∀ path st1' st2', silent st1' = silent st2' →
     quiet (recurse path st1') = quiet (recurse path st2')) →
  silent st1 = silent st2 →
  quiet (for_each lines requirements (process_line recurse absolute_path) st1)
  = quiet (for_each lines requirements (process_line recurse absolute_path) st2).
Proof.
  intros IH. revert requirements st1 st2.
  induction lines as [|raw lines IHlines]; intros requirements st1 st2 Hst.
  - simpl. by f_equal.
  - cbn [for_each]. apply quiet_bind; [by apply process_line_quiet|].
    intros requirements' st1' st2' Hst'. by apply IHlines.
Qed.

Lemma parse_requirements_fuel_quiet (fuel : nat) (path : string)
    (st1 st2 : state) :
  silent st1 = silent st2 →
  quiet (parse_requirements_fuel fs fuel path st1)
  = quiet (parse_requirements_fuel fs fuel path st2).
Proof.
  revert path st1 st2.
  induction fuel as [|fuel IH]; intros path st1 st2 Hst; [done|].
  rewrite !parse_requirements_fuel_unfold.
  assert (parsed_files st1 = parsed_files st2) as Hparsed
    by (unfold silent in Hst; congruence).
  rewrite Hparsed. case_bool_decide as Hseen.
  { simpl. f_equal. unfold silent in *. simpl. congruence. }
  destruct (fs !! abspath path) as [[lines|]|].
  - apply for_each_quiet; [done|].
    unfold silent in *. simpl. congruence.
  - simpl. f_equal. unfold silent in *. simpl. congruence.
  - simpl. f_equal. unfold silent in *. simpl. congruence.
Qed.

(** C8. A path that does not exist gives the empty list after one
    diagnostic, without an exception, at the top level and in a nested
    call; the line that includes it adds nothing to the requirements, and
    the loop goes on with the next lines of the including file, with the
    result, but for what is printed, of the loop without that line. *)
Theorem missing_file_skipped (path : string) (st : state) :
  fs !! abspath path = None →
  (∀ fuel, ∃ msg,
     parse_requirements_fuel fs (S fuel) path st = Ok [] (printed msg st))
  ∧ parse_requirements fs path st
    = Ok [] (printed ("Warning: " +:+ abspath path
                      +:+ " does not exist. Skipping.") (fresh st))
  ∧ (∀ fuel absolute_path requirements raw rest directive nested_req,
       is_blank_or_comment (Py.strip raw) = false →
       is_include (Py.strip raw) = true →
       Py.split (Py.strip raw) = [directive; nested_req] →
       join (dirname absolute_path) nested_req = path →
       (∃ msg,
          process_line (parse_requirements_fuel fs (S fuel)) absolute_path
            requirements raw st
          = Ok requirements (printed msg st)
          ∧ for_each (raw :: rest) requirements
              (process_line (parse_requirements_fuel fs (S fuel)) absolute_path)
              st
            = for_each rest requirements
                (process_line (parse_requirements_fuel fs (S fuel)) absolute_path)
                (printed msg st))
       ∧ quiet (for_each (raw :: rest) requirements
                  (process_line (parse_requirements_fuel fs (S fuel))
                     absolute_path) st)
         = quiet (for_each rest requirements
                    (process_line (parse_requirements_fuel fs (S fuel))
                       absolute_path) st)).
Proof.
  intros Hmissing.
  assert (∀ fuel, ∃ msg,
            parse_requirements_fuel fs (S fuel) path st
            = Ok [] (printed msg st)) as Hcall.
  { intros fuel. rewrite parse_requirements_fuel_unfold, Hmissing.
    case_bool_decide; eauto. }
  split_and!; [done| |].
  - rewrite parse_requirements_eq, parse_requirements_fuel_unfold, Hmissing.
    rewrite bool_decide_eq_false_2; [done|]. simpl. set_solver.
  - intros fuel absolute_path requirements raw rest directive nested_req
      Hskip Hinc Hsplit Hpath.
    destruct (Hcall fuel) as [msg Hmsg].
    assert (process_line (parse_requirements_fuel fs (S fuel)) absolute_path
              requirements raw st
            = Ok requirements (printed msg st)) as Hline.
    { rewrite (process_line_include _ _ _ _ _ directive nested_req) by done.
      rewrite Hpath, Hmsg. by rewrite app_nil_r. }
    assert (for_each (raw :: rest) requirements
              (process_line (parse_requirements_fuel fs (S fuel)) absolute_path)
              st
            = for_each rest requirements
                (process_line (parse_requirements_fuel fs (S fuel)) absolute_path)
                (printed msg st)) as Hloop.
    { cbn [for_each]. unfold bind at 1. by rewrite Hline. }
    split; [by exists msg|].
    rewrite Hloop. apply for_each_quiet; [|done].
    intros path' st1' st2'. apply parse_requirements_fuel_quiet.
Qed.

Lemma split_include (line : string) :
  is_include line = true → ∃ directive args, Py.split line = directive :: args.
Proof.
  intros Hinc. destruct line as [|c line]; [done|].
  apply split_cons. unfold is_include in Hinc. simpl in Hinc.
  destruct (bool_decide (_ = c)) eqn:Hc; [|done].
  apply bool_decide_eq_true in Hc. by subst c.
Qed.

(** A line whose first field is the token [-r] or [--requirement] starts
    with these characters, when it does not start with whitespace. *)
Lemma spec_is_include_prefix (line : string) :
  (∀ c t, line = String c t → Py.isspace c = false) →
  spec_is_include line = true → is_include line = true.
Proof.
  intros Hhead. unfold spec_is_include, is_include, Py.split.
  destruct (Py.split_from "" line) as [|directive args] eqn:Hsplit; [done|].
  intros Htoken.
  destruct (split_from_prefix line "" directive args) as [rest Hrest];
    [right | done |].
  { destruct line as [|c t]; [done|]. exists c, t. eauto. }
  rewrite str_app_nil_l in Hrest. rewrite Hrest.
  apply orb_true_iff in Htoken as [Htoken | Htoken];
    apply bool_decide_eq_true in Htoken; subst directive.
  - by rewrite startswith_app.
  - rewrite (startswith_app "--requirement"). apply orb_true_r.
Qed.

(** C1 (as amended). A line that, stripped, is neither empty nor a comment.
    When it starts with the characters [-r] or [--requirement] (as every
    line does whose first field is one of these tokens), it has a first
    field, and the fields after it are its arguments: with exactly one
    argument, the argument is joined to the directory of the current file
    and the lines of the recursive call on that path are appended; with
    none or more than one, the line is skipped after one diagnostic. Every
    other line is appended as it is. The recursive call is a call of the
    resolver: on a path not met before it reads the lines of the file at
    that path and runs the same loop over them. *)
Theorem process_line_cases (fuel : nat) (absolute_path : string)
    (requirements : list string) (raw : string) (st : state) :
  is_blank_or_comment (Py.strip raw) = false →
  (spec_is_include (Py.strip raw) = true → is_include (Py.strip raw) = true)
  ∧ (is_include (Py.strip raw) = true →
     ∃ directive args,
       Py.split (Py.strip raw) = directive :: args
       ∧ match args with
         | [nested_req] =>
             process_line (parse_requirements_fuel fs fuel) absolute_path
               requirements raw st
             = match parse_requirements_fuel fs fuel
                       (join (dirname absolute_path) nested_req) st with
               | Ok nested st' => Ok (requirements ++ nested) st'
               | Raised e st' => Raised e st'
               | OutOfFuel => OutOfFuel
               end
         | _ =>
             process_line (parse_requirements_fuel fs fuel) absolute_path
               requirements raw st
             = Ok requirements
                 (printed ("Unrecognized requirement line: " +:+ Py.strip raw)
                    st)
         end)
  ∧ (is_include (Py.strip raw) = false →
     process_line (parse_requirements_fuel fs fuel) absolute_path
       requirements raw st
     = Ok (requirements ++ [Py.strip raw]) st)
  ∧ (∀ nested_path lines st',
       abspath nested_path ∉ parsed_files st' →
       fs !! abspath nested_path = Some (Regular lines) →
       parse_requirements_fuel fs (S fuel) nested_path st'
       = for_each lines []
           (process_line (parse_requirements_fuel fs fuel)
              (abspath nested_path))
           {| parsed_files := {[abspath nested_path]} ∪ parsed_files st';
              stdout := stdout st';
              opened := opened st' ++ [abspath nested_path];
              written := written st' |}).
Proof.
  intros Hskip. split_and!.
  - apply spec_is_include_prefix. intros c t Hline.
    unfold Py.strip in Hline. by apply lstrip_head in Hline.
  - intros Hinc. destruct (split_include _ Hinc) as (directive & args & Hsplit).
    exists directive, args. split; [done|].
    destruct args as [|nested_req [|? ?]].
    + apply process_line_malformed; [done | done | by rewrite Hsplit].
    + by apply process_line_include with directive.
    + apply process_line_malformed; [done | done | by rewrite Hsplit].
  - intros Hinc. by apply process_line_raw.
  - intros nested_path lines st' Hnew Hfs.
    rewrite parse_requirements_fuel_unfold.
    by rewrite bool_decide_eq_false_2, Hfs by done.
Qed.

End Resolver.

(** ** The entry point *)

Section Conversion.

Context `{OsPath}.
Variable fs : gmap string node.
Variable writable : string -> bool.

Lemma main_eq (input output : string) (st : state) :
  main fs writable input output st
  = match parse_requirements fs input st with
    | Ok reqs st1 =>
        let d := set_all OrderedDict.empty (requirement_of <$> reqs) in
        let st2 := logged (parse_warnings reqs) st1 in
        if writable output
        then Ok tt (finished output (generate_pyproject_toml d) st2)
        else Raised (OSError output) st2
    | Raised e st1 => Raised e st1
    | OutOfFuel => OutOfFuel
    end.
Proof.
  unfold main. unfold bind at 1.
  destruct (parse_requirements fs input st) as [reqs st1| |]; [|done|done].
  unfold bind at 1. rewrite collect_dependencies_eq.
  unfold bind, write_file. by destruct (writable output).
Qed.



End Conversion.

(** ** The example of the specification *)

(** C4 (as amended). The top-level file has the lines [a==1.0] and
    [-r sub.txt], and [sub.txt], next to it, has the lines [b==2.0] and
    [a==3.0]: the resolved lines are [a==1.0], [b==2.0], [a==3.0]; the
    dictionary binds [a] to [==3.0] and [b] to [==2.0]; the dependencies
    section of the text written has three lines, the fixed line
    [python = "^3.8"] and then the two dependency lines [a = "==3.0"] and
    [b = "==2.0"]. *)
Theorem example_dependencies `{OsPath} (fs : gmap string node)
    (writable : string -> bool) (input output : string) (st : state)
    (top1 top2 sub1 sub2 : string) :
  fs !! abspath input = Some (Regular [top1; top2]) →
  Py.strip top1 = "a==1.0" →
  Py.strip top2 = "-r sub.txt" →
  fs !! abspath (join (dirname (abspath input)) "sub.txt")
  = Some (Regular [sub1; sub2]) →
  Py.strip sub1 = "b==2.0" →
  Py.strip sub2 = "a==3.0" →
  writable output = true →
  ∃ st1 st' text,
    parse_requirements fs input st = Ok ["a==1.0"; "b==2.0"; "a==3.0"] st1
    ∧ collect_dependencies ["a==1.0"; "b==2.0"; "a==3.0"] st1
      = Ok [("a", Some "==3.0"); ("b", Some "==2.0")] st1
    ∧ main fs writable input output st = Ok tt st'
    ∧ written st' = written st ++ [(output, text)]
    ∧ text
      = "[tool.poetry]" +:+ Py.nl
        +:+ "name = " +:+ Py.dquote +:+ "your-project-name" +:+ Py.dquote
        +:+ Py.nl
        +:+ "version = " +:+ Py.dquote +:+ "0.1.0" +:+ Py.dquote +:+ Py.nl
        +:+ "description = " +:+ Py.dquote
        +:+ "A short description of your project." +:+ Py.dquote +:+ Py.nl
        +:+ "authors = [" +:+ Py.dquote +:+ "Your Name <you@example.com>"
        +:+ Py.dquote +:+ "]" +:+ Py.nl
        +:+ Py.nl
        +:+ "[tool.poetry.dependencies]" +:+ Py.nl
        +:+ "python = " +:+ Py.dquote +:+ "^3.8" +:+ Py.dquote +:+ Py.nl
        +:+ "a = " +:+ Py.dquote +:+ "==3.0" +:+ Py.dquote +:+ Py.nl
        +:+ "b = " +:+ Py.dquote +:+ "==2.0" +:+ Py.dquote +:+ Py.nl
        +:+ Py.nl +:+ Py.nl
        +:+ "[build-system]" +:+ Py.nl
        +:+ "requires = [" +:+ Py.dquote +:+ "poetry-core>=1.0.0"
        +:+ Py.dquote +:+ "]" +:+ Py.nl
        +:+ "build-backend = " +:+ Py.dquote +:+ "poetry.core.masonry.api"
        +:+ Py.dquote +:+ Py.nl
    ∧ section_lines "tool.poetry.dependencies" text
      = ["python = " +:+ Py.dquote +:+ "^3.8" +:+ Py.dquote;
         "a = " +:+ Py.dquote +:+ "==3.0" +:+ Py.dquote;
         "b = " +:+ Py.dquote +:+ "==2.0" +:+ Py.dquote].
Proof.
  intros Htop Htop1 Htop2 Hsub Hsub1 Hsub2 Hout.
  set (top := abspath input) in *.
  set (sub := abspath (join (dirname top) "sub.txt")) in *.
  assert (sub ≠ top) as Hne.
  { intros Heq. rewrite Heq, Htop in Hsub. injection Hsub as -> _.
    rewrite Htop1 in Hsub1. discriminate. }
  assert (∃ fuel, size fs = S fuel) as [fuel Hsize].
  { destruct (size fs) eqn:Hsz; [|by eauto].
    apply map_size_empty_iff in Hsz. by rewrite Hsz in Htop. }
  assert (parse_requirements fs input st
          = Ok ["a==1.0"; "b==2.0"; "a==3.0"] (entered sub (entered top (fresh st))))
    as Hreqs.
  { rewrite parse_requirements_eq, parse_requirements_fuel_unfold.
    fold top. rewrite Htop.
    rewrite bool_decide_eq_false_2 by (simpl; set_solver).
    cbn [for_each]. unfold bind.
    rewrite process_line_raw by (by rewrite Htop1).
    rewrite (process_line_include _ _ _ _ _ "-r" "sub.txt")
      by (by rewrite Htop2).
    rewrite Hsize, parse_requirements_fuel_unfold. fold sub. rewrite Hsub.
    rewrite bool_decide_eq_false_2 by (simpl; set_solver).
    cbn [for_each]. unfold bind.
    rewrite process_line_raw by (by rewrite Hsub1).
    rewrite process_line_raw by (by rewrite Hsub2).
    by rewrite Htop1, Hsub1, Hsub2. }
  eexists _, _, _. split; [exact Hreqs|]. split_and!.
  - rewrite collect_dependencies_eq. by rewrite logged_nil.
  - rewrite main_eq, Hreqs, Hout. reflexivity.
  - reflexivity.
  - reflexivity.
  - reflexivity.
Qed.

Lemma example_dependencies_witness :
  match
    main (H := Posix.os_path "/w") example_fs (λ _, true)
      "requirements.txt" "pyproject.toml" initial_state
  with
  | Ok _ st' =>
      ∃ text,
        written st' = [("pyproject.toml", text)]
        ∧ section_lines "tool.poetry.dependencies" text
          = ["python = " +:+ Py.dquote +:+ "^3.8" +:+ Py.dquote;
             "a = " +:+ Py.dquote +:+ "==3.0" +:+ Py.dquote;
             "b = " +:+ Py.dquote +:+ "==2.0" +:+ Py.dquote]
  | _ => False
  end.
Proof.
  destruct (example_dependencies (H := Posix.os_path "/w") example_fs
              (λ _, true) "requirements.txt" "pyproject.toml" initial_state
              ("a==1.0" +:+ Py.nl) ("-r sub.txt" +:+ Py.nl)
              ("b==2.0" +:+ Py.nl) ("a==3.0" +:+ Py.nl)
              eq_refl eq_refl eq_refl eq_refl eq_refl eq_refl eq_refl)
    as (st1 & st' & text & _ & _ & Hmain & Hwritten & _ & Hsection).
  rewrite Hmain. exists text. split; [exact Hwritten | exact Hsection].
Defined.

(** C4 (as stated) fails: the dependencies section of the text written for
    the example has three lines, not two, the first being the fixed line
    [python = "^3.8"]. *)
Lemma example_three_dependency_lines :
  match
    main (H := Posix.os_path "/w") example_fs (λ _, true)
      "requirements.txt" "pyproject.toml" initial_state
  with
  | Ok _ st' =>
      ∃ text,
        written st' = [("pyproject.toml", text)]
        ∧ section_lines "tool.poetry.dependencies" text
          = ["python = " +:+ Py.dquote +:+ "^3.8" +:+ Py.dquote;
             "a = " +:+ Py.dquote +:+ "==3.0" +:+ Py.dquote;
             "b = " +:+ Py.dquote +:+ "==2.0" +:+ Py.dquote]
        ∧ length (section_lines "tool.poetry.dependencies" text) ≠ 2
  | _ => False
  end.
Proof.
  vm_compute. eexists. split; [reflexivity|].
  split; [vm_compute; reflexivity|]. vm_compute. discriminate.
Qed.

(** ** The properties on concrete files *)

Lemma process_line_cases_witness :
  is_blank_or_comment (Py.strip ("-r sub.txt" +:+ Py.nl)) = false
  ∧ spec_is_include (Py.strip ("-r sub.txt" +:+ Py.nl)) = true
  ∧ Posix.join (Posix.dirname "/w/requirements.txt") "sub.txt" = "/w/sub.txt"
  ∧ process_line (H := Posix.os_path "/w")
      (parse_requirements_fuel (H := Posix.os_path "/w") example_fs 1)
      "/w/requirements.txt" ["a==1.0"] ("-r sub.txt" +:+ Py.nl) initial_state
    = Ok ["a==1.0"; "b==2.0"; "a==3.0"]
        {| parsed_files := {["/w/sub.txt"]} ∪ ∅;
           stdout := [];
           opened := ["/w/sub.txt"];
           written := [] |}.
Proof.
  split; [reflexivity|]. split; [reflexivity|]. split; [reflexivity|].
  destruct (process_line_cases (H := Posix.os_path "/w") example_fs 1
              "/w/requirements.txt" ["a==1.0"]
              ("-r sub.txt" +:+ Py.nl) initial_state eq_refl)
    as (Htoken & Hinclude & _ & _).
  destruct (Hinclude (Htoken eq_refl)) as (directive & args & Hsplit & Hcase).
  injection Hsplit as <- <-. rewrite Hcase. reflexivity.
Defined.

(** C1 (as stated) fails on the line [-rsub.txt]: its first field is not an
    include directive token, so the claim has it appended as a raw
    requirement, and the resolver skips it with the diagnostic. On the line
    [-rx sub.txt], which has no directive token either, the resolver
    includes the file [sub.txt]. *)
Lemma process_line_prefix_not_token :
  is_blank_or_comment (Py.strip "-rsub.txt") = false
  ∧ spec_is_include (Py.strip "-rsub.txt") = false
  ∧ process_line (H := Posix.os_path "/w")
      (parse_requirements_fuel (H := Posix.os_path "/w") example_fs 1)
      "/w/requirements.txt" [] "-rsub.txt" initial_state
    = Ok [] (printed "Unrecognized requirement line: -rsub.txt" initial_state)
  ∧ process_line (H := Posix.os_path "/w")
      (parse_requirements_fuel (H := Posix.os_path "/w") example_fs 1)
      "/w/requirements.txt" [] "-rsub.txt" initial_state
    ≠ Ok ["-rsub.txt"] initial_state
  ∧ spec_is_include (Py.strip "-rx sub.txt") = false
  ∧ process_line (H := Posix.os_path "/w")
      (parse_requirements_fuel (H := Posix.os_path "/w") example_fs 1)
      "/w/requirements.txt" [] "-rx sub.txt" initial_state
    = Ok ["b==2.0"; "a==3.0"]
        {| parsed_files := {["/w/sub.txt"]} ∪ ∅;
           stdout := [];
           opened := ["/w/sub.txt"];
           written := [] |}
  ∧ ¬ (∀ raw requirements st,
         is_blank_or_comment (Py.strip raw) = false →
         spec_is_include (Py.strip raw) = false →
         process_line (H := Posix.os_path "/w")
           (parse_requirements_fuel (H := Posix.os_path "/w") example_fs 1)
           "/w/requirements.txt" requirements raw st
         = Ok (requirements ++ [Py.strip raw]) st).
Proof.
  split_and!; try reflexivity.
  - discriminate.
  - intros Hspec.
    specialize (Hspec "-rsub.txt" [] initial_state eq_refl eq_refl).
    discriminate Hspec.
Qed.

(** The second line of the example: the directive [-r] with the argument
    [sub.txt], that is the file [/w/sub.txt]. *)
Example include_sub_txt :
  Posix.join (Posix.dirname "/w/requirements.txt") "sub.txt" = "/w/sub.txt"
  ∧ process_line (H := Posix.os_path "/w")
      (parse_requirements_fuel (H := Posix.os_path "/w") example_fs 1)
      "/w/requirements.txt" ["a==1.0"] ("-r sub.txt" +:+ Py.nl) initial_state
    = Ok ["a==1.0"; "b==2.0"; "a==3.0"] (entered "/w/sub.txt" initial_state).
Proof. split; reflexivity. Qed.

Lemma parse_requirements_terminates_witness :
  size circular_fs < 5
  ∧ parse_requirements_fuel (H := Posix.os_path "/w") circular_fs 5 "a.txt"
      (fresh initial_state)
    = parse_requirements (H := Posix.os_path "/w") circular_fs "a.txt"
        initial_state.
Proof.
  assert (size circular_fs < 5) as Hsize by (vm_compute; lia).
  split; [exact Hsize|].
  apply (proj1 (proj2 (proj2 (parse_requirements_terminates
                                (H := Posix.os_path "/w") circular_fs
                                "a.txt" initial_state)))).
  exact Hsize.
Defined.

(** Two files that include each other: each is read once, and the second
    meeting with the first one is a diagnostic. *)
Example circular_includes :
  parse_requirements (H := Posix.os_path "/w") circular_fs "a.txt" initial_state
  = Ok ["x==1"; "y==2"]
      {| parsed_files := {["/w/b.txt"]} ∪ ({["/w/a.txt"]} ∪ ∅);
         stdout := ["Already parsed /w/a.txt, skipping to avoid circular includes."];
         opened := ["/w/a.txt"; "/w/b.txt"];
         written := [] |}.
Proof. reflexivity. Qed.

Lemma missing_file_skipped_witness :
  example_fs !! Posix.abspath "/w" "nope.txt" = None
  ∧ parse_requirements (H := Posix.os_path "/w") example_fs "nope.txt"
      initial_state
    = Ok [] (printed "Warning: /w/nope.txt does not exist. Skipping."
               (fresh initial_state)).
Proof.
  split; [reflexivity|].
  apply (proj1 (proj2 (missing_file_skipped (H := Posix.os_path "/w")
                         example_fs "nope.txt" initial_state eq_refl))).
Defined.

(** The dictionary of the lines [b==1], [a==2], [b==3]: [b] stays first and
    takes its last constraint. *)
Example collect_dependencies_duplicate :
  collect_dependencies ["b==1"; "a==2"; "b==3"] initial_state
  = Ok [("b", Some "==3"); ("a", Some "==2")] initial_state.
Proof. reflexivity. Qed.

(** The test for an include directive is on the first characters of the
    line: a first field that only begins with [-r] makes a directive too,
    here with the argument [sub.txt], and with no second field the line is
    skipped. *)
Example include_by_prefix :
  process_line (H := Posix.os_path "/w")
    (parse_requirements_fuel (H := Posix.os_path "/w") example_fs 1)
    "/w/requirements.txt" [] "-rx sub.txt" initial_state
  = Ok ["b==2.0"; "a==3.0"] (entered "/w/sub.txt" initial_state)
  ∧ process_line (H := Posix.os_path "/w")
      (parse_requirements_fuel (H := Posix.os_path "/w") example_fs 1)
      "/w/requirements.txt" [] "-rsub.txt" initial_state
    = Ok [] (printed "Unrecognized requirement line: -rsub.txt" initial_state).
Proof. split; reflexivity. Qed.

(** What the pattern makes of some lines: a version after spaces, a
    bracket that is not a list of extras, a line that begins with an
    operator, and a text on two lines. *)
Example match_requirement_samples :
  match_requirement "foo  >= 2  " = Some ("foo", Some ">= 2")
  ∧ match_requirement "foo[]" = Some ("foo", Some "[]")
  ∧ match_requirement "foo[a]]" = Some ("foo[a]", Some "]")
  ∧ match_requirement "==1.0" = None
  ∧ match_requirement ("foo" +:+ Py.nl) = Some ("foo", None)
  ∧ match_requirement ("foo " +:+ Py.nl +:+ "y" +:+ Py.nl +:+ "x") = None.
Proof. repeat split; reflexivity. Qed.

(** * Further properties of the program *)

(** ** The include resolver: what a call leaves behind *)

Lemma grows_refl (fs : gmap string node) (st : state) : grows fs st st.
Proof.
  split_and!; [done | exists []; by rewrite app_nil_r |].
  exists []. rewrite app_nil_r. split_and!; [done | set_solver |].
  by intros p ?%elem_of_nil.
Qed.

Lemma grows_trans (fs : gmap string node) (st1 st2 st3 : state) :
  grows fs st1 st2 → grows fs st2 st3 → grows fs st1 st3.
Proof.
  intros (Hw1 & [out1 Ho1] & new1 & Hn1 & Hp1 & He1)
         (Hw2 & [out2 Ho2] & new2 & Hn2 & Hp2 & He2).
  split_and!.
  - congruence.
  - exists (out1 ++ out2). by rewrite Ho2, Ho1, app_assoc.
  - exists (new1 ++ new2). split_and!.
    + by rewrite Hn2, Hn1, app_assoc.
    + rewrite Hp2, Hp1, list_to_set_app_L. set_solver.
    + intros p [?|?]%elem_of_app; auto.
Qed.

Lemma grows_printed (fs : gmap string node) (msg : string) (st : state) :
  grows fs st (printed msg st).
Proof.
  split_and!; [done | by exists [msg] |].
  exists []. simpl. rewrite app_nil_r. split_and!; [done | set_solver |].
  by intros p ?%elem_of_nil.
Qed.

Lemma grows_entered (fs : gmap string node) (path : string) (st : state) :
  is_Some (fs !! path) → grows fs st (entered path st).
Proof.
  intros Hex. split_and!; [done | exists []; simpl; by rewrite app_nil_r |].
  exists [path]. simpl. split_and!; [done | set_solver |].
  by intros p ->%list_elem_of_singleton.
Qed.

Lemma grows_parsed (fs : gmap string node) (st st' : state) :
  grows fs st st' → parsed_files st ⊆ parsed_files st'.
Proof. intros (_ & _ & new & _ & -> & _). set_solver. Qed.

Lemma sourced_mono (fs : gmap string node) (b b' a a' : gset string) reqs :
  b' ⊆ b → a ⊆ a' → sourced fs b a reqs → sourced fs b' a' reqs.
Proof.
  intros Hb Ha Hreqs l Hl.
  destruct (Hreqs l Hl) as (p & lines & raw & Hin & Hout & Hrest).
  exists p, lines, raw. split; [set_solver|]. split; [set_solver | done].
Qed.

Lemma sourced_app (fs : gmap string node) (b a : gset string) reqs1 reqs2 :
  sourced fs b a reqs1 → sourced fs b a reqs2 → sourced fs b a (reqs1 ++ reqs2).
Proof. intros H1 H2 l [?|?]%elem_of_app; auto. Qed.

Lemma sourced_nil (fs : gmap string node) (b a : gset string) :
  sourced fs b a [].
Proof. by intros l ?%elem_of_nil. Qed.

Lemma accounted_trans (fs : gmap string node) (before : gset string)
    (st st' : state) (r : result (list string)) :
  grows fs st st' → accounted fs before st' r → accounted fs before st r.
Proof.
  intros Hg. destruct r as [reqs st''|e st''|]; simpl; [| |done].
  - intros [? ?]. split; [by eapply grows_trans | done].
  - intros [? ?]. split; [by eapply grows_trans | done].
Qed.

Section Accounting.

Context `{OsPath}.
Variable fs : gmap string node.

Lemma process_line_accounted (fuel : nat) absolute_path all_lines before
    requirements raw st :
  (∀ path st', accounted fs (parsed_files st')
                 st' (parse_requirements_fuel fs fuel path st')) →
  fs !! absolute_path = Some (Regular all_lines) →
  raw ∈ all_lines →
  absolute_path ∈ parsed_files st → absolute_path ∉ before →
  before ⊆ parsed_files st →
  sourced fs before (parsed_files st) requirements →
  accounted fs before st
    (process_line (parse_requirements_fuel fs fuel) absolute_path
       requirements raw st).
Proof.
  intros IH Hfile Hraw Hin Hout Hsub Hacc. unfold process_line.
  destruct (Py.is_empty _ || Py.startswith "#" _) eqn:Hskip.
  { split; [apply grows_refl | done]. }
  destruct (is_include _) eqn:Hinc.
  - destruct (Py.split _) as [|directive [|nested_req [|? ?]]];
      try (split; [apply grows_printed | done]).
    unfold bind. specialize (IH (join (dirname absolute_path) nested_req) st).
    destruct (parse_requirements_fuel _ _ _ _) as [nested st'|e st'|];
      simpl in IH |- *; [|done|done].
    destruct IH as [Hg Hnested]. split; [done|].
    pose proof (grows_parsed _ _ _ Hg).
    apply sourced_app.
    + by apply (sourced_mono fs before before (parsed_files st)
                  (parsed_files st')).
    + by apply (sourced_mono fs (parsed_files st) before (parsed_files st')
                  (parsed_files st')).
  - split; [apply grows_refl|]. apply sourced_app; [done|].
    intros l ->%list_elem_of_singleton.
    exists absolute_path, all_lines, raw. by split_and!.
Qed.

Lemma for_each_accounted (fuel : nat) absolute_path all_lines before lines
    requirements st :
  (∀ path st', accounted fs (parsed_files st')
                 st' (parse_requirements_fuel fs fuel path st')) →
  fs !! absolute_path = Some (Regular all_lines) →
  (∀ raw, raw ∈ lines → raw ∈ all_lines) →
  absolute_path ∈ parsed_files st → absolute_path ∉ before →
  before ⊆ parsed_files st →
  sourced fs before (parsed_files st) requirements →
  accounted fs before st
    (for_each lines requirements
       (process_line (parse_requirements_fuel fs fuel) absolute_path) st).
Proof.
  intros IH Hfile. revert requirements st.
  induction lines as [|raw lines IHlines];
    intros requirements st Hlines Hin Hout Hsub Hacc.
  - split; [apply grows_refl | done].
  - cbn [for_each]. unfold bind.
    pose proof (process_line_accounted fuel absolute_path all_lines before
                  requirements raw st IH Hfile
                  (Hlines raw (list_elem_of_here _ _)) Hin Hout Hsub Hacc)
      as Hline.
    destruct (process_line _ _ _ _ _) as [requirements' st'|e st'|];
      simpl in Hline; [|done|done].
    destruct Hline as [Hg Hacc'].
    pose proof (grows_parsed _ _ _ Hg).
    eapply accounted_trans; [done|].
    apply IHlines; [|set_solver|done|set_solver|done].
    intros raw' Hraw'. apply Hlines. by right.
Qed.

Lemma parse_requirements_fuel_accounted (fuel : nat) (path : string)
    (st : state) :
  accounted fs (parsed_files st) st (parse_requirements_fuel fs fuel path st).
Proof.
  revert path st. induction fuel as [|fuel IH]; intros path st; [done|].
  rewrite parse_requirements_fuel_unfold.
  case_bool_decide as Hseen.
  { split; [apply grows_printed | apply sourced_nil]. }
  destruct (fs !! abspath path) as [[lines|]|] eqn:Hfs.
  - assert (grows fs st (entered (abspath path) st)) as Hg
      by (apply grows_entered; by rewrite Hfs).
    eapply accounted_trans; [done|].
    eapply for_each_accounted; try done.
    + simpl. set_solver.
    + simpl. set_solver.
    + apply sourced_nil.
  - simpl. split; [apply grows_entered; by rewrite Hfs|].
    exists (abspath path). split_and!; [done | done |].
    by rewrite last_snoc.
  - split; [apply grows_printed | apply sourced_nil].
Qed.

End Accounting.

(** ** [str.strip] *)

Lemma lstrip_idemp (s : string) : Py.lstrip (Py.lstrip s) = Py.lstrip s.
Proof.
  induction s as [|c s IH]; [done|]. simpl.
  destruct (Py.isspace c) eqn:Hc; [done|]. simpl. by rewrite Hc.
Qed.

Lemma rstrip_idemp (s : string) : Py.rstrip (Py.rstrip s) = Py.rstrip s.
Proof.
  induction s as [|c s IH]; [done|]. simpl.
  destruct (Py.isspace c && Py.is_empty (Py.rstrip s)) eqn:Hc; [done|].
  simpl. by rewrite IH, Hc.
Qed.

Lemma lstrip_rstrip (s : string) :
  Py.lstrip (Py.rstrip s) = Py.rstrip (Py.lstrip s).
Proof.
  induction s as [|c s IH]; [done|]. simpl.
  destruct (Py.isspace c) eqn:Hc; simpl.
  - rewrite <- IH. destruct (Py.is_empty (Py.rstrip s)) eqn:He; simpl.
    + apply is_empty_true in He. by rewrite He.
    + by rewrite Hc.
  - by rewrite Hc.
Qed.

Lemma strip_idemp (s : string) : Py.strip (Py.strip s) = Py.strip s.
Proof.
  unfold Py.strip.
  by rewrite <- (lstrip_rstrip (Py.rstrip s)), rstrip_idemp, lstrip_idemp.
Qed.

(** ** The include resolver: further properties *)

Section Bookkeeping.

Context `{OsPath}.
Variable fs : gmap string node.

(** X1. Every line that [parse_requirements] returns is a line of a
    readable file that the call has parsed, stripped of its surrounding
    whitespace; it is not empty, not a comment and not an include directive,
    and stripping it again changes nothing. *)
Theorem parse_requirements_sourced (path : string) (st : state)
    (reqs : list string) (st' : state) :
  parse_requirements fs path st = Ok reqs st' →
  ∀ l, l ∈ reqs →
    (∃ p lines raw,
       p ∈ parsed_files st' ∧ fs !! p = Some (Regular lines)
       ∧ raw ∈ lines ∧ l = Py.strip raw)
    ∧ l ≠ "" ∧ Py.startswith "#" l = false
    ∧ Py.startswith "-r" l = false
    ∧ Py.startswith "--requirement" l = false
    ∧ Py.strip l = l.
Proof.
  intros Hcall l Hl.
  pose proof (parse_requirements_fuel_accounted fs (S (size fs)) path
                (fresh st)) as Hacc.
  rewrite <- parse_requirements_eq, Hcall in Hacc. destruct Hacc as [_ Hsrc].
  destruct (Hsrc l Hl) as (p & lines & raw & Hp & _ & Hfile & Hraw & -> & Hb & Hi).
  unfold is_blank_or_comment in Hb. apply orb_false_iff in Hb as [He Hc].
  unfold is_include in Hi. apply orb_false_iff in Hi as [Hr Hrr].
  split_and!; try done.
  - by exists p, lines, raw.
  - by apply is_empty_false.
  - apply strip_idemp.
Qed.

(** X2. When [parse_requirements] comes back, with a list or with an
    exception, the set of parsed files is exactly the set of the paths it
    opened; these paths all exist, so they are no more than the files of
    the file system. The call writes no file and erases nothing of what was
    printed. *)
Theorem parse_requirements_bookkeeping (path : string) (st : state) :
  ∃ st',
    ((∃ reqs, parse_requirements fs path st = Ok reqs st')
     ∨ (∃ e, parse_requirements fs path st = Raised e st'))
    ∧ ∃ new : list string,
      opened st' = opened st ++ new
      ∧ parsed_files st' = list_to_set new
      ∧ (∀ p, p ∈ new → is_Some (fs !! p))
      ∧ length new ≤ size fs
      ∧ written st' = written st
      ∧ ∃ out : list string, stdout st' = stdout st ++ out.
Proof.
  pose proof (parse_requirements_fuel_accounted fs (S (size fs)) path
                (fresh st)) as Hacc.
  pose proof (parse_requirements_resolved fs path st) as Hres.
  rewrite <- parse_requirements_eq in Hacc.
  assert (∀ st', grows fs (fresh st) st' → extends (fresh st) st' →
            ∃ new : list string,
              opened st' = opened st ++ new
              ∧ parsed_files st' = list_to_set new
              ∧ (∀ p, p ∈ new → is_Some (fs !! p))
              ∧ length new ≤ size fs
              ∧ written st' = written st
              ∧ ∃ out : list string, stdout st' = stdout st ++ out) as Hpost.
  { intros st' (Hw & Hout & new & Hnew & Hparsed & Hexist)
      [_ (new' & Hnew' & Hnd & _)].
    simpl in *. exists new. split_and!; try done.
    - rewrite Hparsed. set_solver.
    - assert (new' = new) as ->
        by (apply (app_inv_head (opened st)); congruence).
      rewrite <- size_dom. unfold size, set_size. simpl.
      apply submseteq_length, NoDup_submseteq; [done|].
      intros p Hp. apply elem_of_elements, elem_of_dom. by apply Hexist. }
  destruct (parse_requirements fs path st) as [reqs st'|[p] st'|];
    simpl in Hacc, Hres; [| |done].
  - exists st'. split; [by eauto|]. apply Hpost; [by destruct Hacc | done].
  - exists st'. split; [by eauto|].
    apply Hpost; [by destruct Hacc | by destruct Hres].
Qed.

(** X3. Within one run, a path that a call has dealt with gives nothing
    the second time: when [parse_requirements(path, parsed_files)] has
    returned, a further call on the same path with the same set returns
    the empty list after one diagnostic. *)
Theorem parse_requirements_fuel_again (fuel : nat) (path : string)
    (st : state) (reqs : list string) (st' : state) :
  parse_requirements_fuel fs fuel path st = Ok reqs st' →
  ∀ fuel', ∃ msg,
    parse_requirements_fuel fs (S fuel') path st' = Ok [] (printed msg st').
Proof.
  intros Hcall fuel'. destruct fuel as [|fuel]; [done|].
  rewrite parse_requirements_fuel_unfold in Hcall |- *.
  case_bool_decide as Hseen.
  { injection Hcall as <- <-. simpl.
    rewrite bool_decide_eq_true_2 by done. eauto. }
  destruct (fs !! abspath path) as [[lines|]|] eqn:Hfs; [|done|].
  - pose proof (for_each_accounted fs fuel (abspath path) lines
                  (parsed_files st) lines [] (entered (abspath path) st)
                  (parse_requirements_fuel_accounted fs fuel) Hfs) as Hacc.
    rewrite Hcall in Hacc. simpl in Hacc.
    destruct Hacc as [Hg _];
      [done | set_solver | done | set_solver | apply sourced_nil |].
    apply grows_parsed in Hg. simpl in Hg.
    rewrite bool_decide_eq_true_2 by set_solver. eauto.
  - injection Hcall as <- <-. simpl.
    rewrite bool_decide_eq_false_2 by done. eauto.
Qed.

End Bookkeeping.

(** ** The include resolver: the list of a file, line by line *)

Lemma prepend_prepend (acc1 acc2 : list string) (r : result (list string)) :
  prepend acc1 (prepend acc2 r) = prepend (acc1 ++ acc2) r.
Proof. destruct r; simpl; [by rewrite app_assoc | done | done]. Qed.

Lemma prepend_nil (r : result (list string)) : prepend [] r = r.
Proof. by destruct r. Qed.

Lemma for_each_app {A B} (l1 l2 : list A) (acc : B) (body : B → A → M B)
    (st : state) :
  for_each (l1 ++ l2) acc body st
  = bind (for_each l1 acc body) (λ acc', for_each l2 acc' body) st.
Proof.
  revert acc st. induction l1 as [|x l1 IH]; intros acc st; [reflexivity|].
  cbn [app for_each]. unfold bind.
  destruct (body acc x st) as [acc' st'| |]; [|reflexivity|reflexivity].
  by rewrite IH.
Qed.

Section Contributions.

Context `{OsPath}.

Lemma process_line_prepend recurse absolute_path requirements raw st :
  process_line recurse absolute_path requirements raw st
  = prepend requirements (process_line recurse absolute_path [] raw st).
Proof.
  unfold process_line.
  destruct (_ || _); [simpl; by rewrite app_nil_r|].
  destruct (is_include _); [|done].
  destruct (Py.split _) as [|directive [|nested_req [|? ?]]];
    try (simpl; by rewrite app_nil_r).
  unfold bind. by destruct (recurse _ st).
Qed.

Lemma for_each_prepend recurse absolute_path lines requirements st :
  for_each lines requirements (process_line recurse absolute_path) st
  = prepend requirements
      (for_each lines [] (process_line recurse absolute_path) st).
Proof.
  revert requirements st.
  induction lines as [|raw lines IH]; intros requirements st.
  - simpl. by rewrite app_nil_r.
  - cbn [for_each]. unfold bind.
    rewrite (process_line_prepend _ _ requirements).
    destruct (process_line recurse absolute_path [] raw st)
      as [reqs st'|e st'|]; [|done|done].
    simpl. rewrite (IH (requirements ++ reqs)), (IH reqs).
    by rewrite prepend_prepend.
Qed.

(** X5. The list that the loop of [parse_requirements] builds for a file
    is the list of its first lines followed by the list of the lines after
    them, read in the state the first ones leave: a line only appends, it
    never changes or removes what the lines before it have given. *)
Theorem for_each_contributions (fs : gmap string node) (fuel : nat)
    (absolute_path : string) (lines1 lines2 : list string)
    (requirements : list string) (st : state) :
  for_each (lines1 ++ lines2) requirements
    (process_line (parse_requirements_fuel fs fuel) absolute_path) st
  = match
      for_each lines1 requirements
        (process_line (parse_requirements_fuel fs fuel) absolute_path) st
    with
    | Ok reqs1 st1 =>
        prepend reqs1
          (for_each lines2 []
             (process_line (parse_requirements_fuel fs fuel) absolute_path)
             st1)
    | Raised e st1 => Raised e st1
    | OutOfFuel => OutOfFuel
    end.
Proof.
  rewrite for_each_app. unfold bind.
  destruct (for_each lines1 _ _ _) as [reqs1 st1| |]; [|done|done].
  apply for_each_prepend.
Qed.

End Contributions.

(** ** The line parser: the shape of a match *)

Lemma span_all (cls : ascii -> bool) (s : string) :
  all_chars cls (span cls s).1 = true.
Proof.
  induction s as [|c s IH]; [done|]. simpl.
  destruct (cls c) eqn:Hc; simpl; [by rewrite Hc | done].
Qed.

Lemma span_app_stop (cls : ascii -> bool) (u t : string) :
  all_chars cls u = true →
  (∀ c t', t = String c t' → cls c = false) →
  span cls (u +:+ t) = (u, t).
Proof.
  intros Hu Ht. induction u as [|c u IH].
  - rewrite str_app_nil_l. destruct t as [|c t']; [done|].
    simpl. by rewrite (Ht c t').
  - simpl in Hu. apply andb_true_iff in Hu as [Hc Hu].
    rewrite str_app_cons. simpl. rewrite Hc. by rewrite (IH Hu).
Qed.

Lemma take_extras_inv (s extras rest : string) :
  take_extras s = Some (extras, rest) →
  ∃ names, extras = "[" +:+ names +:+ "]" ∧ names ≠ ""
           ∧ all_chars extras_char names = true.
Proof.
  destruct s as [|c s]; [done|]. unfold take_extras.
  case_bool_decide as Hc; [|done].
  pose proof (span_all extras_char s) as Hall.
  destruct (span extras_char s) as [names r]. simpl in Hall.
  destruct r as [|d r]; [done|].
  destruct (Py.is_empty names) eqn:He; [done|].
  case_bool_decide as Hd; [|done]. simpl. intros [= <- <-].
  exists names. split_and!; [done | by apply is_empty_false | done].
Qed.

Lemma take_extras_exact (names rest : string) :
  names ≠ "" → all_chars extras_char names = true →
  take_extras ("[" +:+ names +:+ "]" +:+ rest)
  = Some ("[" +:+ names +:+ "]", rest).
Proof.
  intros Hne Hall. rewrite str_app_cons, str_app_nil_l. unfold take_extras.
  rewrite bool_decide_eq_true_2 by done.
  rewrite (span_app_stop extras_char names ("]" +:+ rest)); [|done|].
  - rewrite str_app_cons, str_app_nil_l.
    apply is_empty_false in Hne. rewrite Hne.
    by rewrite bool_decide_eq_true_2 by done.
  - rewrite str_app_cons, str_app_nil_l. by intros c t' [= <- _].
Qed.

(** What a match is made of: a name, extras that are empty or a bracketed
    list, and the rest of the line. *)
Lemma split_requirement_inv (line pkg v : string) :
  split_requirement line = Some (pkg, v) →
  ∃ name extras rest,
    pkg = name +:+ extras ∧ line = pkg +:+ rest
    ∧ name ≠ "" ∧ all_chars ident_char name = true
    ∧ (extras = ""
       ∨ ∃ names, extras = "[" +:+ names +:+ "]" ∧ names ≠ ""
                  ∧ all_chars extras_char names = true)
    ∧ version_text rest = Some v.
Proof.
  unfold split_requirement.
  pose proof (span_app ident_char line) as Happ.
  pose proof (span_all ident_char line) as Hall.
  destruct (span ident_char line) as [name rest]. simpl in Happ, Hall.
  destruct (Py.is_empty name) eqn:He; [done|]. apply is_empty_false in He.
  destruct (take_extras rest) as [[extras rest']|] eqn:Hex.
  - destruct (version_text rest') as [v'|] eqn:Hv; [|done].
    intros [= <- <-]. exists name, extras, rest'.
    pose proof (take_extras_app _ _ _ Hex) as Hrest.
    split_and!; try done.
    + by rewrite str_app_assoc, <- Hrest.
    + right. by eapply take_extras_inv.
  - destruct (version_text rest) as [v'|] eqn:Hv; [|done].
    intros [= <- <-]. exists name, "", rest.
    rewrite str_app_nil_r. split_and!; try done. by left.
Qed.

Lemma rstrip_app_nl (v : string) : Py.rstrip (v +:+ Py.nl) = Py.rstrip v.
Proof.
  induction v as [|c v IH]; [done|]. rewrite str_app_cons. simpl.
  by rewrite IH.
Qed.

Lemma version_tail_app_eol (t v : string) :
  version_tail t = Some v → t = v ∨ t = v +:+ Py.nl.
Proof.
  unfold version_tail. pose proof (span_app Re.dot t) as Happ.
  destruct (Py.is_empty (span Re.dot t).2) eqn:He; simpl.
  - intros [= <-]. left. apply is_empty_true in He.
    by rewrite He, str_app_nil_r in Happ.
  - case_bool_decide as Hnl; [|done]. intros [= <-]. right.
    by rewrite Hnl in Happ.
Qed.

(** The version is the text after the package without the whitespace
    around it. *)
Lemma version_text_strip (rest v : string) :
  version_text rest = Some v →
  Py.strip v = Py.strip rest ∧ Py.is_empty v = Py.is_empty (Py.strip rest).
Proof.
  unfold version_text. intros Hv.
  assert (Py.lstrip v = v) as Hl.
  { destruct v as [|c v']; [done|].
    assert (Py.isspace c = false) as Hc.
    { destruct (version_tail_app_eol _ _ Hv) as [Ht | Ht];
        by apply (lstrip_head rest c) in Ht. }
    simpl. by rewrite Hc. }
  assert (Py.strip rest = Py.rstrip v) as Hs.
  { unfold Py.strip. rewrite lstrip_rstrip.
    destruct (version_tail_app_eol _ _ Hv) as [-> | ->];
      [done | apply rstrip_app_nl]. }
  split.
  - unfold Py.strip at 1. by rewrite lstrip_rstrip, Hl, Hs.
  - rewrite Hs. destruct v as [|c v']; [done|]. simpl in Hl |- *.
    destruct (Py.isspace c) eqn:Hc; [|done].
    exfalso. by apply (lstrip_head v' c v') in Hl; congruence.
Qed.

Lemma match_requirement_inv (line pkg : string) (ver : option string) :
  match_requirement line = Some (pkg, ver) →
  ∃ v, split_requirement line = Some (pkg, v)
       ∧ ver = if Py.is_empty v then None else Some (Py.strip v).
Proof.
  rewrite match_requirement_split.
  destruct (split_requirement line) as [[p v]|]; [|done].
  simpl. intros [= <- <-]. by exists v.
Qed.

(** X6. When the pattern matches, nothing of the line is lost but
    whitespace: the line is the package followed by a rest, the package is
    not empty, and the constraint is that rest stripped, or [None] when
    the rest is only whitespace. *)
Theorem match_requirement_decomposes (line pkg : string) (ver : option string) :
  match_requirement line = Some (pkg, ver) →
  ∃ rest,
    line = pkg +:+ rest ∧ pkg ≠ ""
    ∧ ver = if Py.is_empty (Py.strip rest) then None
            else Some (Py.strip rest).
Proof.
  intros (v & Hsplit & ->)%match_requirement_inv.
  apply split_requirement_inv in Hsplit
    as (name & extras & rest & -> & Hline & Hname & _ & _ & Hv).
  exists rest. apply version_text_strip in Hv as [Hs He].
  split_and!; [done | by destruct name | by rewrite He, Hs].
Qed.

(** X7. The package of a match is a non-empty name made of letters,
    digits, [_], [-] and [.], followed by nothing or by one bracketed,
    non-empty list made of the same characters and commas. *)
Theorem match_requirement_package (line pkg : string) (ver : option string) :
  match_requirement line = Some (pkg, ver) →
  ∃ name extras,
    pkg = name +:+ extras ∧ name ≠ "" ∧ all_chars ident_char name = true
    ∧ (extras = ""
       ∨ ∃ names, extras = "[" +:+ names +:+ "]" ∧ names ≠ ""
                  ∧ all_chars extras_char names = true).
Proof.
  intros (v & Hsplit & _)%match_requirement_inv.
  apply split_requirement_inv in Hsplit
    as (name & extras & rest & Hpkg & _ & Hname & Hall & Hextras & _).
  by exists name, extras.
Qed.

(** X8. The package of a match parses to itself: given as a line, it
    matches, with itself as the package and no constraint. *)
Theorem match_requirement_package_again (line pkg : string)
    (ver : option string) :
  match_requirement line = Some (pkg, ver) →
  match_requirement pkg = Some (pkg, None).
Proof.
  intros (v & Hsplit & _)%match_requirement_inv.
  apply split_requirement_inv in Hsplit
    as (name & extras & rest & -> & _ & Hname & Hall & Hextras & _).
  rewrite match_requirement_split. unfold split_requirement.
  rewrite (span_app_stop ident_char name extras); [|done|].
  - apply is_empty_false in Hname. rewrite Hname.
    destruct Hextras as [-> | (names & -> & Hne & Hnames)].
    + by rewrite str_app_nil_r.
    + assert (take_extras ("[" +:+ names +:+ "]")
              = Some ("[" +:+ names +:+ "]", "")) as ->
        by exact (take_extras_exact names "" Hne Hnames).
      done.
  - intros c t' Ht.
    destruct Hextras as [-> | (names & -> & _ & _)]; [done|].
    rewrite str_app_cons, str_app_nil_l in Ht. by injection Ht as <- _.
Qed.

(** A version that is not empty does not strip to the empty string. *)
Lemma version_text_nonempty (rest v : string) :
  version_text rest = Some v → Py.is_empty v = false → Py.strip v ≠ "".
Proof.
  intros Hv Hne. apply version_text_strip in Hv as [Hs He].
  apply is_empty_false. by rewrite Hs, <- He.
Qed.

(** X9. A constraint that the parser returns is never the empty string and
    has no whitespace around it. *)
Theorem match_requirement_constraint (line pkg v : string) :
  match_requirement line = Some (pkg, Some v) →
  v ≠ "" ∧ Py.strip v = v.
Proof.
  intros (v0 & Hsplit & Hver)%match_requirement_inv.
  apply split_requirement_inv in Hsplit
    as (name & extras & rest & _ & _ & _ & _ & _ & Hv).
  destruct (Py.is_empty v0) eqn:Hv0; [done|]. injection Hver as ->.
  split; [by eapply version_text_nonempty | apply strip_idemp].
Qed.

(** ** The dictionary of [main]: further properties *)

Lemma Forall_setitem (P : option string → Prop) (d : OrderedDict.t)
    (k : string) (v : option string) :
  Forall (λ kv, P kv.2) d → P v →
  Forall (λ kv, P kv.2) (OrderedDict.setitem d k v).
Proof.
  intros Hd Hv. induction d as [|[k' v'] d IH]; simpl.
  - by repeat constructor.
  - apply Forall_cons in Hd as [Hv' Hd].
    destruct (bool_decide (k' = k)); constructor; auto.
Qed.

Lemma Forall_set_all (P : option string → Prop)
    (l : list (string * option string)) (d : OrderedDict.t) :
  Forall (λ kv, P kv.2) d → Forall (λ kv, P kv.2) l →
  Forall (λ kv, P kv.2) (set_all d l).
Proof.
  revert d. induction l as [|[k v] l IH]; intros d Hd Hl; [done|].
  apply Forall_cons in Hl as [Hv Hl].
  apply IH; [|done]. by apply Forall_setitem.
Qed.

Lemma requirement_of_constraint (line : string) :
  (requirement_of line).2 ≠ Some "".
Proof.
  unfold requirement_of.
  destruct (match_requirement line) as [[pkg [v|]]|] eqn:Hm; simpl; try done.
  intros [= ->].
  apply match_requirement_inv in Hm as (v0 & Hsplit & Hver).
  apply split_requirement_inv in Hsplit
    as (name & extras & rest & _ & _ & _ & _ & _ & Hv).
  destruct (Py.is_empty v0) eqn:Hv0; [done|]. injection Hver as Hver.
  by apply (version_text_nonempty rest v0).
Qed.

Lemma dependency_line_spec (item : string * option string) :
  item.2 ≠ Some "" → dependency_line item = spec_dependency_line item.
Proof. destruct item as [pkg [[|c v]|]]; by simpl. Qed.

Lemma elem_of_first_occurrences (l : list string) (k : string) :
  k ∈ first_occurrences l ↔ k ∈ l.
Proof.
  induction l as [|k' l IH]; [done|]. simpl.
  rewrite !elem_of_cons, list_elem_of_filter, IH.
  destruct (decide (k = k')); tauto.
Qed.

Lemma length_first_occurrences (l : list string) :
  length (first_occurrences l) ≤ length l.
Proof.
  induction l as [|k l IH]; [done|]. simpl.
  pose proof (length_filter (λ k', k' ≠ k) (first_occurrences l)). lia.
Qed.

Lemma get_None (d : OrderedDict.t) (k : string) :
  OrderedDict.get d k = None ↔ k ∉ OrderedDict.keys d.
Proof.
  unfold OrderedDict.keys. induction d as [|[k' v'] d IH]; simpl.
  - split; [intros _; apply not_elem_of_nil | done].
  - rewrite not_elem_of_cons. case_bool_decide as Hk.
    + split; [done | intros [? _]; congruence].
    + rewrite IH. split; [by intros ? | by intros [_ ?]]; auto.
Qed.

Lemma filter_none {A} (P : A → Prop) `{∀ x, Decision (P x)} (l : list A) :
  (∀ x, x ∈ l → ¬ P x) → filter P l = [].
Proof.
  intros Hl. induction l as [|x l IH]; [done|].
  rewrite filter_cons, decide_False by (apply Hl; by left).
  apply IH. intros y Hy. apply Hl. by right.
Qed.

(** Two dictionaries with the same keys in the same order and the same
    value for every key are the same. *)
Lemma dict_ext (d1 d2 : OrderedDict.t) :
  NoDup (OrderedDict.keys d1) →
  OrderedDict.keys d1 = OrderedDict.keys d2 →
  (∀ k, OrderedDict.get d1 k = OrderedDict.get d2 k) →
  d1 = d2.
Proof.
  revert d2. induction d1 as [|[k v] d1 IH]; intros [|[k' v'] d2] Hnd Hkeys Hget;
    try done.
  injection Hkeys as <- Hkeys. apply NoDup_cons in Hnd as [Hk Hnd].
  pose proof (Hget k) as Hv. simpl in Hv.
  rewrite !bool_decide_eq_true_2 in Hv by done. injection Hv as <-.
  f_equal. apply IH; [done | done |]. intros j. specialize (Hget j).
  simpl in Hget. case_bool_decide as Hj; [|done]. subst j.
  fold (OrderedDict.keys d1) in Hk.
  transitivity (@None (option string)); [|symmetry]; apply get_None; [done|].
  by rewrite <- Hkeys.
Qed.

(** X10. On the dictionary that the loop of [main] builds, the generator
    never meets an empty constraint, so its test of the truth value is the
    test for [None]: every dependency with a constraint is written with
    that constraint between quotes, and only those without are written
    with the wildcard. *)
Theorem collect_dependencies_rendered (reqs : list string) (st : state) :
  ∃ d st',
    collect_dependencies reqs st = Ok d st'
    ∧ (∀ pkg ver, (pkg, ver) ∈ OrderedDict.items d → ver ≠ Some "")
    ∧ generate_pyproject_toml d
      = toml_head
        +:+ String.concat "" (spec_dependency_line <$> OrderedDict.items d)
        +:+ build_system_block.
Proof.
  eexists _, _. split; [apply collect_dependencies_eq|].
  assert (Forall (λ kv : string * option string, kv.2 ≠ Some "")
            (set_all OrderedDict.empty (requirement_of <$> reqs))) as Hall.
  { apply (Forall_set_all (λ ver, ver ≠ Some "")); [constructor|].
    apply Forall_fmap, Forall_forall. intros line _.
    apply requirement_of_constraint. }
  split.
  - intros pkg ver Hin. rewrite Forall_forall in Hall.
    apply (Hall (pkg, ver) Hin).
  - rewrite generate_pyproject_toml_eq. unfold dependency_lines.
    do 3 f_equal. apply Forall_fmap_ext_1.
    eapply Forall_impl; [exact Hall|]. intros item. apply dependency_line_spec.
Qed.

(** X11. The dictionary that the loop of [main] builds has a key for the
    package that [parse_requirement_line] returns for each requirement
    line and no other key, and it has no more entries than there are
    lines. *)
Theorem collect_dependencies_keys (reqs : list string) (st : state) :
  ∃ d st',
    collect_dependencies reqs st = Ok d st'
    ∧ (∀ pkg, pkg ∈ OrderedDict.keys d
              ↔ ∃ line ver st1,
                  line ∈ reqs
                  ∧ parse_requirement_line line st = Ok (pkg, ver) st1)
    ∧ length (OrderedDict.items d) ≤ length reqs.
Proof.
  eexists _, _. split; [apply collect_dependencies_eq|]. split.
  - intros pkg. rewrite keys_set_all_empty, elem_of_first_occurrences.
    rewrite <- list_fmap_compose, list_elem_of_fmap. split.
    + intros (line & -> & Hline).
      exists line, (requirement_of line).2, (logged (parse_warnings [line]) st).
      split; [done|]. rewrite parse_requirement_line_eq.
      unfold compose. by destruct (requirement_of line).
    + intros (line & ver & st1 & Hline & Hparse). exists line. split; [|done].
      rewrite parse_requirement_line_eq in Hparse.
      injection Hparse as Hreq _. simpl. by rewrite Hreq.
  - transitivity (length (OrderedDict.keys
                            (set_all OrderedDict.empty (requirement_of <$> reqs)))).
    + unfold OrderedDict.keys, OrderedDict.items. by rewrite length_fmap.
    + rewrite keys_set_all_empty.
      etrans; [apply length_first_occurrences|]. by rewrite !length_fmap.
Qed.

(** X12. Requirement lines that come twice change nothing: the dictionary
    built from a list of lines followed by the same list again is the
    dictionary built from the list. *)
Theorem collect_dependencies_twice (reqs : list string) (st : state) :
  ∃ d st1 st2,
    collect_dependencies reqs st = Ok d st1
    ∧ collect_dependencies (reqs ++ reqs) st = Ok d st2.
Proof.
  eexists _, _, _. split; [apply collect_dependencies_eq|].
  rewrite collect_dependencies_eq. f_equal.
  set (l := requirement_of <$> reqs). rewrite fmap_app. fold l.
  unfold set_all at 1. rewrite fold_left_app.
  fold (set_all OrderedDict.empty l).
  fold (set_all (set_all OrderedDict.empty l) l).
  apply dict_ext.
  - apply NoDup_keys_set_all, NoDup_keys_set_all. constructor.
  - rewrite keys_set_all, filter_none, app_nil_r; [done|].
    intros k Hk Hnot. apply Hnot. by rewrite keys_set_all_empty.
  - intros k. rewrite !get_set_all. simpl.
    by destruct (last_write l k).
Qed.

(** ** The manifest of a file without include directives *)

Section Written.

Context `{OsPath}.
Variable fs : gmap string node.
Variable writable : string -> bool.


End Written.


(** ** The entry point: further properties *)

Section Outcome.

Context `{OsPath}.
Variable fs : gmap string node.
Variable writable : string -> bool.

(** X13. [main] does not recurse without end. When it returns, the output
    path was writable; the resolver returned a list of lines, the loop of
    [main] made a dictionary of them, and exactly one file was written, at
    the output path, with the manifest of that dictionary; the last thing
    printed is the message of success. *)
Theorem main_outcome (input output : string) (st : state) :
  main fs writable input output st ≠ OutOfFuel
  ∧ ∀ st',
      main fs writable input output st = Ok tt st' →
      writable output = true
      ∧ (∃ reqs st1 d st2,
           parse_requirements fs input st = Ok reqs st1
           ∧ collect_dependencies reqs st1 = Ok d st2
           ∧ written st'
             = written st ++ [(output, generate_pyproject_toml d)])
      ∧ last (stdout st') = Some ("Successfully generated " +:+ output).
Proof.
  rewrite main_eq.
  pose proof (parse_requirements_fuel_accounted fs (S (size fs)) input
                (fresh st)) as Hacc.
  pose proof (parse_requirements_resolved fs input st) as Hres.
  rewrite <- parse_requirements_eq in Hacc.
  destruct (parse_requirements fs input st) as [reqs st1|e st1|];
    simpl in Hacc, Hres; [| |done].
  - destruct Hacc as [(Hw & _) _]. simpl in Hw.
    destruct (writable output) eqn:Hout; simpl; [|by split].
    split; [done|]. intros st' [= <-]. simpl.
    split_and!; [done | | by rewrite last_snoc].
    eexists reqs, st1, _, _. split; [done|].
    split; [apply collect_dependencies_eq|]. simpl. by rewrite Hw.
  - by split.
Qed.

(** X14. An input path that does not exist does not stop [main]: when the
    output is writable, it prints the warning, writes the manifest of the
    empty dictionary, that is the template alone, and prints the message
    of success. *)
Theorem main_missing_input (input output : string) (st : state) :
  fs !! abspath input = None →
  writable output = true →
  ∃ st',
    main fs writable input output st = Ok tt st'
    ∧ written st'
      = written st ++ [(output, toml_head +:+ build_system_block)]
    ∧ stdout st'
      = stdout st
        ++ ["Warning: " +:+ abspath input +:+ " does not exist. Skipping.";
            "Successfully generated " +:+ output].
Proof.
  intros Hmissing Hout. eexists. rewrite main_eq.
  rewrite parse_requirements_eq, parse_requirements_fuel_unfold, Hmissing.
  rewrite bool_decide_eq_false_2 by (simpl; set_solver).
  rewrite Hout. split; [reflexivity|]. simpl. split; [done|].
  by rewrite app_nil_r, <- app_assoc.
Qed.

End Outcome.

(** ** The further properties on concrete files *)

Lemma parse_requirements_sourced_witness :
  (∃ p lines raw,
     p ∈ parsed_files
           (entered "/w/sub.txt"
              (entered "/w/requirements.txt" (fresh initial_state)))
     ∧ example_fs !! p = Some (Regular lines)
     ∧ raw ∈ lines ∧ "b==2.0" = Py.strip raw)
  ∧ "b==2.0" ≠ "" ∧ Py.startswith "#" "b==2.0" = false
  ∧ Py.startswith "-r" "b==2.0" = false
  ∧ Py.startswith "--requirement" "b==2.0" = false
  ∧ Py.strip "b==2.0" = "b==2.0".
Proof.
  apply (parse_requirements_sourced (H := Posix.os_path "/w") example_fs
           "requirements.txt" initial_state
           ["a==1.0"; "b==2.0"; "a==3.0"]
           (entered "/w/sub.txt"
              (entered "/w/requirements.txt" (fresh initial_state)))
           eq_refl "b==2.0").
  apply list_elem_of_further, list_elem_of_here.
Defined.

Lemma parse_requirements_fuel_again_witness :
  ∃ msg,
    parse_requirements_fuel (H := Posix.os_path "/w") example_fs 1 "sub.txt"
      (entered "/w/sub.txt" initial_state)
    = Ok [] (printed msg (entered "/w/sub.txt" initial_state)).
Proof.
  apply (parse_requirements_fuel_again (H := Posix.os_path "/w") example_fs
           3 "sub.txt" initial_state ["b==2.0"; "a==3.0"]
           (entered "/w/sub.txt" initial_state) eq_refl 0).
Defined.

Lemma match_requirement_decomposes_witness :
  ∃ rest,
    "foo[extra1,extra2]  >=1.0,<2.0 " = "foo[extra1,extra2]" +:+ rest
    ∧ "foo[extra1,extra2]" ≠ ""
    ∧ Some ">=1.0,<2.0"
      = if Py.is_empty (Py.strip rest) then None else Some (Py.strip rest).
Proof.
  apply (match_requirement_decomposes "foo[extra1,extra2]  >=1.0,<2.0 "
           "foo[extra1,extra2]" (Some ">=1.0,<2.0") eq_refl).
Defined.

Lemma match_requirement_package_witness :
  ∃ name extras,
    "foo[extra1,extra2]" = name +:+ extras ∧ name ≠ ""
    ∧ all_chars ident_char name = true
    ∧ (extras = ""
       ∨ ∃ names, extras = "[" +:+ names +:+ "]" ∧ names ≠ ""
                  ∧ all_chars extras_char names = true).
Proof.
  apply (match_requirement_package "foo[extra1,extra2]  >=1.0,<2.0 "
           "foo[extra1,extra2]" (Some ">=1.0,<2.0") eq_refl).
Defined.

Lemma match_requirement_package_again_witness :
  match_requirement "foo[extra1,extra2]" = Some ("foo[extra1,extra2]", None).
Proof.
  apply (match_requirement_package_again "foo[extra1,extra2]  >=1.0,<2.0 "
           "foo[extra1,extra2]" (Some ">=1.0,<2.0") eq_refl).
Defined.

Lemma match_requirement_constraint_witness :
  ">=1.0,<2.0" ≠ "" ∧ Py.strip ">=1.0,<2.0" = ">=1.0,<2.0".
Proof.
  apply (match_requirement_constraint "foo[extra1,extra2]  >=1.0,<2.0 "
           "foo[extra1,extra2]" ">=1.0,<2.0" eq_refl).
Defined.

Lemma main_missing_input_witness :
  ∃ st',
    main (H := Posix.os_path "/w") example_fs (λ _, true) "nope.txt"
      "pyproject.toml" initial_state
    = Ok tt st'
    ∧ written st' = [("pyproject.toml", toml_head +:+ build_system_block)]
    ∧ stdout st'
      = ["Warning: /w/nope.txt does not exist. Skipping.";
         "Successfully generated pyproject.toml"].
Proof.
  apply (main_missing_input (H := Posix.os_path "/w") example_fs (λ _, true)
           "nope.txt" "pyproject.toml" initial_state eq_refl eq_refl).
Defined.

(** A file that includes a directory: the exception leaves [main] before
    anything is written, and the line after the include is not read. *)
Example include_of_a_directory :
  main (H := Posix.os_path "/w") broken_fs (λ _, true) "requirements.txt"
    "pyproject.toml" initial_state
  = Raised (OSError "/w/dir")
      (entered "/w/dir" (entered "/w/requirements.txt" (fresh initial_state))).
Proof. reflexivity. Qed.
